(** * govmap_geoserver: adaptive chunked download of WFS layers

    A shallow embedding of [govmap_geoserver.py].  The script downloads one
    layer at a time: it asks the server for the number of features
    ([get_feature_count]), skips the layer when a complete GeoPackage is
    already on disk ([check_existing_geopackage]), fetches the layer in
    windows of [CHUNK_SIZE] features ([fetch_features_with_retry], which
    splits a window that timed out into pieces of a tenth of its size),
    writes every non-empty window to a scratch GeoJSON file, and finally
    merges the scratch files into the layer's GeoPackage ([process_layer]).

    Modelling choices.
    - Python integers are [Z].
    - [int(count * 0.1)] is a binary64 product truncated towards zero; for
      every count the program can form (at most [CHUNK_SIZE]) it equals the
      integer quotient truncated towards zero, [Z.quot count 10].
    - The HTTP server and geopandas are the environment [Env]:
      the answer to the n-th page request, the answer to the count request,
      and whether geopandas can read a scratch file back.
    - Everything the script mutates is the [World]: the page requests sent
      so far, the log, the scratch directory and the layer's GeoPackage.
    - Python exceptions are the [Raised] results of a state-and-error monad.
      The recursion of [fetch_features_with_retry] is driven by fuel, and
      [OutOfFuel] is a result of its own, which no handler catches.
    - The model follows one layer: [layer_name] only selects the URLs and the
      file names, so a scratch file is keyed by its window start and the
      GeoPackage is a single slot.  [time.sleep] has no state and is left
      out, as are operating-system failures of writing or removing a file. *)

From Stdlib Require Import ZArith List Lia Bool Sorted.
From stdpp Require Import gmap list sorting.
From Stdlib Require Ascii String DecimalString DecimalZ.
Import ListNotations.

Local Open Scope Z_scope.

(** ** Settings *)

Definition CHUNK_SIZE : Z := 2000.
Definition FORCE_OVERWRITE : bool := false.

(** ** Python's [range(a, b, step)] *)

(** Number of elements of [range(a, b, step)] for a non-zero step, as
    CPython computes it. *)
Definition range_len (a b step : Z) : Z :=
  if (0 <? step) && (a <? b) then 1 + (b - 1 - a) / step
  else if (step <? 0) && (b <? a) then 1 + (a - 1 - b) / (- step)
  else 0.

(** [range(a, b, step)]; [None] is the [ValueError] of a zero step. *)
Definition py_range (a b step : Z) : option (list Z) :=
  if step =? 0 then None
  else Some (map (fun i : nat => a + Z.of_nat i * step)
                 (seq 0 (Z.to_nat (range_len a b step)))).

(** ** Data *)

Inductive Level := Info | Warning | Error.

(** The query parameters that vary in a page URL. *)
Record PageUrl := mkUrl { q_count : Z; q_startIndex : Z }.

Definition page_url (start_index count : Z) : PageUrl :=
  {| q_count := count; q_startIndex := start_index |}.

(** One constructor per logging call of the script, with the values the
    message interpolates. *)
Inductive LogMsg :=
| CountingFeatures
| NumberMatchedMissing
| CountFailed
| TimeoutFetching (start_index count : Z)
| FailedFetch (start_index count : Z)
| ErrorFetching (start_index count : Z)
| MinChunkReached (start_index : Z)
| RetrySmaller (start_index count small_count : Z)
| MissingSubChunk (sub_start sub_count : Z)
| ExistingMatches (actual : Z)
| ExistingMismatch (actual expected : Z)
| ExistingUnreadable
| StartingDownload
| FeaturesToDownload (count : Z)
| NoFeaturesForLayer
| NoDataReturned (start : Z)
| EmptyChunk (start : Z)
| FetchedFeatures (n start : Z)
| FetchedChunk (start stop n : Z)
| ErrorReadingTemp (start : Z)
| NoValidFrames
| SavedGeoPackage
| Downloaded (n expected : Z)
| MissingChunksHeader
| MissingChunkLine (start : Z) (url : PageUrl).

Definition LogEntry : Type := Level * LogMsg.

(** The exceptions the modelled code can raise. *)
Inductive Exn := TimeoutExn | ValueError | FileNotFoundError.

Inductive Result (A : Type) :=
| Ok (a : A)
| Raised (e : Exn)
| OutOfFuel.
Arguments Ok {A} a.
Arguments Raised {A} e.
Arguments OutOfFuel {A}.

(** The [numberMatched] attribute of the count response: missing, present
    with a text [int()] rejects, or an integer. *)
Inductive NumberMatched := AttrAbsent | AttrNotInt | AttrInt (n : Z).

(** Outcome of the count request: the request or the XML parser raised, or
    the root element was parsed. *)
Inductive HitsResponse := HitsFailed | HitsXml (number_matched : NumberMatched).

Section Program.
Context {Feature : Type}.

(** A JSON body: a feature collection, or any other value (a falsy one, or
    one without a ["features"] member). *)
Inductive Json :=
| FeatureCollection (features : list Feature)
| OtherJson.

(** Outcome of one page request: [requests.get] timed out, the request
    failed in another way (connection error, HTTP error status, a body
    that is not JSON), or a JSON body came back. *)
Inductive HttpResult :=
| Timeout
| OtherFailure
| Body (data : Json).

(** What is stored at the layer's GeoPackage path. *)
Inductive StoredFile :=
| Unreadable
| Table (rows : list Feature).

Record Env := {
  (** answer to the page request [(start, count)] sent after [n] others *)
  page_response : nat -> Z -> Z -> HttpResult;
  (** answer to the count request *)
  hits_response : HitsResponse;
  (** whether [gpd.read_file] can read the scratch file of a window back *)
  geojson_readable : Z -> list Feature -> bool
}.

Record World := {
  requests : list (Z * Z);
  log : list LogEntry;
  temp_chunks : gmap Z (list Feature);
  geopackage : option StoredFile
}.

(** ** The monad: state [World], results [Result] *)

Definition M (A : Type) : Type := World -> Result A * World.

Definition ret {A} (a : A) : M A := fun w => (Ok a, w).

Definition bind {A B} (m : M A) (k : A -> M B) : M B :=
  fun w =>
    match m w with
    | (Ok a, w') => k a w'
    | (Raised e, w') => (Raised e, w')
    | (OutOfFuel, w') => (OutOfFuel, w')
    end.

Definition raise {A} (e : Exn) : M A := fun w => (Raised e, w).

Definition out_of_fuel {A} : M A := fun w => (OutOfFuel, w).

(** [try: m  except Exception: h] *)
Definition try_except {A} (m : M A) (h : Exn -> M A) : M A :=
  fun w =>
    match m w with
    | (Raised e, w') => h e w'
    | r => r
    end.

Definition logger (lvl : Level) (msg : LogMsg) : M unit :=
  fun w =>
    (Ok tt, {| requests := requests w; log := log w ++ [(lvl, msg)];
               temp_chunks := temp_chunks w; geopackage := geopackage w |}).

End Program.

Arguments Json : clear implicits.
Arguments HttpResult : clear implicits.
Arguments StoredFile : clear implicits.
Arguments Env : clear implicits.
Arguments World : clear implicits.
Arguments M : clear implicits.

Declare Scope py_scope.
Delimit Scope py_scope with py.
Notation "x <- m ;; k" := (bind m (fun x => k))
  (at level 100, m at next level, right associativity) : py_scope.
Notation "m ;;; k" := (bind m (fun _ => k))
  (at level 100, right associativity) : py_scope.

Local Open Scope py_scope.

Section Script.
Context {Feature : Type}.
Variable env : Env Feature.

Definition set_requests (rs : list (Z * Z)) (w : World Feature) : World Feature :=
  {| requests := rs; log := log w;
     temp_chunks := temp_chunks w; geopackage := geopackage w |}.

Definition set_temp_chunks (t : gmap Z (list Feature)) (w : World Feature)
  : World Feature :=
  {| requests := requests w; log := log w;
     temp_chunks := t; geopackage := geopackage w |}.

Definition set_geopackage (g : option (StoredFile Feature)) (w : World Feature)
  : World Feature :=
  {| requests := requests w; log := log w;
     temp_chunks := temp_chunks w; geopackage := g |}.

(** ** [get_feature_count] *)

Definition get_feature_count : M Feature Z :=
  logger Info CountingFeatures ;;;
  match hits_response env with
  | HitsXml (AttrInt n) => ret n
  | HitsXml AttrAbsent => logger Warning NumberMatchedMissing ;;; ret 0
  | HitsXml AttrNotInt => logger Error CountFailed ;;; ret 0
  | HitsFailed => logger Error CountFailed ;;; ret 0
  end.

(** ** [fetch_features] *)

(** [requests.get(url, timeout=60)] followed by [raise_for_status] and
    [resp.json()]: the request joins the history and the environment
    answers it. *)
Definition http_get (start_index count : Z) : M Feature (HttpResult Feature) :=
  fun w =>
    (Ok (page_response env (length (requests w)) start_index count),
     set_requests (requests w ++ [(start_index, count)]) w).

(** Returns the JSON body ([Some]), Python's [None] after a failure that is
    not a timeout, and re-raises a timeout. *)
Definition fetch_features (start_index count : Z)
  : M Feature (option (Json Feature)) :=
  r <- http_get start_index count ;;
  match r with
  | Body data => ret (Some data)
  | Timeout =>
      logger Warning (TimeoutFetching start_index count) ;;; raise TimeoutExn
  | OtherFailure =>
      logger Error (FailedFetch start_index count) ;;; ret None
  end.

(** ** [fetch_features_with_retry] *)

(** [data["features"] if data and "features" in data and data["features"]
    else []] *)
Definition features_of (data : option (Json Feature)) : list Feature :=
  match data with
  | Some (FeatureCollection features) => features
  | _ => []
  end.

(** The [for sub_start in range(...)] loop, over the recursive call [rec]. *)
Fixpoint retry_loop (rec : Z -> Z -> Z -> M Feature (list Feature))
    (start_index count small_count min_chunk : Z)
    (sub_starts : list Z) (features : list Feature)
  : M Feature (list Feature) :=
  match sub_starts with
  | [] => ret features
  | sub_start :: rest =>
      let sub_count := Z.min small_count (start_index + count - sub_start) in
      features' <-
        try_except
          (sub_features <- rec sub_start sub_count min_chunk ;;
           ret (features ++ sub_features))
          (fun _ =>
             logger Error (MissingSubChunk sub_start sub_count) ;;;
             ret features) ;;
      retry_loop rec start_index count small_count min_chunk rest features'
  end.

Fixpoint fetch_features_with_retry_fuel (fuel : nat)
    (start_index count min_chunk : Z) : M Feature (list Feature) :=
  match fuel with
  | O => out_of_fuel
  | S fuel' =>
      fun w =>
        match fetch_features start_index count w with
        | (Ok data, w1) => (Ok (features_of data), w1)
        | (Raised TimeoutExn, w1) =>
            (if count <=? min_chunk then
               logger Error (MinChunkReached start_index) ;;; ret []
             else
               let small_count := Z.max (Z.quot count 10) min_chunk in
               logger Warning (RetrySmaller start_index count small_count) ;;;
               match py_range start_index (start_index + count) small_count with
               | None => raise ValueError
               | Some sub_starts =>
                   retry_loop (fetch_features_with_retry_fuel fuel')
                     start_index count small_count min_chunk sub_starts []
               end) w1
        | (Raised _, w1) =>
            (logger Error (ErrorFetching start_index count) ;;; ret []) w1
        | (OutOfFuel, w1) => (OutOfFuel, w1)
        end
  end.

(** Fuel that covers the recursion depth of a window of [count] features
    whenever the floor is at least one. *)
Definition retry_fuel (count : Z) : nat := S (Z.to_nat (Z.log2_up count)).

Definition fetch_features_with_retry (start_index count min_chunk : Z)
  : M Feature (list Feature) :=
  fetch_features_with_retry_fuel (retry_fuel count) start_index count min_chunk.

(** The windows the loop of [fetch_features_with_retry] visits. *)
Definition sub_windows (start_index count small_count : Z) (sub_starts : list Z)
  : list (Z * Z) :=
  map (fun sub_start =>
         (sub_start, Z.min small_count (start_index + count - sub_start)))
      sub_starts.

(** ** [check_existing_geopackage] *)

Definition check_existing_geopackage (expected_count : Z) : M Feature bool :=
  fun w =>
    match geopackage w with
    | None => (Ok false, w)
    | Some Unreadable => (logger Warning ExistingUnreadable ;;; ret false) w
    | Some (Table rows) =>
        let actual_count := Z.of_nat (length rows) in
        (if actual_count =? expected_count then
           logger Info (ExistingMatches actual_count) ;;; ret true
         else
           logger Info (ExistingMismatch actual_count expected_count) ;;;
           ret false) w
    end.

(** ** [process_layer] *)

(** The local variables of the download loop. *)
Record Locals := {
  tmp_files : list Z;
  total_fetched : Z;
  missing_chunks : list (Z * PageUrl)
}.

(** The [return] a run of [process_layer] left through, with the locals it
    had then (Python returns [None] on each). *)
Inductive LayerOutcome :=
| NothingToFetch
| AlreadyComplete
| NoValidGeoDataFrames (locals : Locals)
| Saved (locals : Locals) (combined : list Feature).

Definition add_missing (start : Z) (l : Locals) : Locals :=
  {| tmp_files := tmp_files l; total_fetched := total_fetched l;
     missing_chunks := missing_chunks l ++ [(start, page_url start CHUNK_SIZE)] |}.

Definition write_temp (start : Z) (features : list Feature) : M Feature unit :=
  fun w => (Ok tt, set_temp_chunks (<[start := features]> (temp_chunks w)) w).

Definition remove_temp (path : Z) : M Feature unit :=
  fun w =>
    match temp_chunks w !! path with
    | Some _ => (Ok tt, set_temp_chunks (delete path (temp_chunks w)) w)
    | None => (Raised FileNotFoundError, w)
    end.

(** Body of [for start in range(0, count, CHUNK_SIZE)]. *)
Definition download_window (count : Z) (l : Locals) (start : Z) : M Feature Locals :=
  fetched <-
    try_except
      (features <- fetch_features_with_retry start CHUNK_SIZE 1 ;;
       ret (Some features))
      (fun _ => logger Error (NoDataReturned start) ;;; ret None) ;;
  match fetched with
  | None => ret (add_missing start l)
  | Some [] => logger Warning (EmptyChunk start) ;;; ret (add_missing start l)
  | Some features =>
      let n := Z.of_nat (length features) in
      logger Info (FetchedFeatures n start) ;;;
      write_temp start features ;;;
      logger Info (FetchedChunk start (Z.min (start + CHUNK_SIZE) count) n) ;;;
      ret {| tmp_files := tmp_files l ++ [start];
             total_fetched := total_fetched l + n;
             missing_chunks := missing_chunks l |}
  end.

Fixpoint for_each {A S : Type} (body : S -> A -> M Feature S) (xs : list A) (s : S)
  : M Feature S :=
  match xs with
  | [] => ret s
  | x :: xs' => s' <- body s x ;; for_each body xs' s'
  end.

(** Body of [for path in tmp_files]: read the scratch file, keep the frame
    when geopandas can read it, and remove the file in any case. *)
Definition merge_chunk (gdfs : list (list Feature)) (path : Z)
  : M Feature (list (list Feature)) :=
  fun w =>
    match temp_chunks w !! path with
    | Some content =>
        (if geojson_readable env path content then
           remove_temp path ;;; ret (gdfs ++ [content])
         else
           logger Error (ErrorReadingTemp path) ;;;
           remove_temp path ;;; ret gdfs) w
    | None =>
        (logger Error (ErrorReadingTemp path) ;;;
         remove_temp path ;;; ret gdfs) w
    end.

Definition to_file (combined : list Feature) : M Feature unit :=
  fun w => (Ok tt, set_geopackage (Some (Table combined)) w).

Definition report_missing (l : Locals) : M Feature unit :=
  match missing_chunks l with
  | [] => ret tt
  | missing =>
      logger Warning MissingChunksHeader ;;;
      for_each (fun _ '(start, url) => logger Warning (MissingChunkLine start url))
               missing tt
  end.

Definition process_layer : M Feature LayerOutcome :=
  logger Info StartingDownload ;;;
  count <- get_feature_count ;;
  logger Info (FeaturesToDownload count) ;;;
  if count =? 0 then
    logger Warning NoFeaturesForLayer ;;; ret NothingToFetch
  else
    skip <- (if negb FORCE_OVERWRITE then check_existing_geopackage count
             else ret false) ;;
    if skip then ret AlreadyComplete
    else
      match py_range 0 count CHUNK_SIZE with
      | None => raise ValueError
      | Some starts =>
          l <- for_each (download_window count) starts
                 {| tmp_files := []; total_fetched := 0; missing_chunks := [] |} ;;
          gdfs <- for_each merge_chunk (tmp_files l) [] ;;
          match gdfs with
          | [] => logger Warning NoValidFrames ;;; ret (NoValidGeoDataFrames l)
          | _ =>
              let combined := concat gdfs in
              to_file combined ;;;
              logger Info SavedGeoPackage ;;;
              logger Info (Downloaded (Z.of_nat (length combined)) count) ;;;
              report_missing l ;;;
              ret (Saved l combined)
          end
      end.

End Script.

(** ** Vocabulary of the properties *)

(** [Tiling lo hi ws]: the windows [ws] (start, size) have positive sizes
    and follow each other from [lo] to [hi] with no gap and no overlap. *)
Inductive Tiling : Z -> Z -> list (Z * Z) -> Prop :=
| Tiling_nil lo : Tiling lo lo []
| Tiling_cons lo hi c ws :
    0 < c -> Tiling (lo + c) hi ws -> Tiling lo hi ((lo, c) :: ws).

Definition total_size (ws : list (Z * Z)) : Z :=
  fold_right Z.add 0 (map snd ws).

(** Number of pieces of size [small_count] needed for [count] features. *)
Definition pieces (count small_count : Z) : nat :=
  Z.to_nat ((count + small_count - 1) / small_count).

(** The world after the page request [(start_index, count)] was sent. *)
Definition sent {Feature} (start_index count : Z) (w : World Feature)
  : World Feature :=
  set_requests (requests w ++ [(start_index, count)]) w.

(** The world after one more log entry. *)
Definition logged {Feature} (lvl : Level) (msg : LogMsg) (w : World Feature)
  : World Feature :=
  {| requests := requests w; log := log w ++ [(lvl, msg)];
     temp_chunks := temp_chunks w; geopackage := geopackage w |}.

(** Log entries written by an exception handler of the script: line 89 and
    line 112 in [fetch_features_with_retry], line 158 in [process_layer]. *)
Definition from_handler (e : LogEntry) : bool :=
  match snd e with
  | ErrorFetching _ _ | MissingSubChunk _ _ | NoDataReturned _ => true
  | _ => false
  end.

(** A page the server delivered for the window [(p_start, p_count)]. *)
Record Page (Feature : Type) := mkPage {
  p_start : Z;
  p_count : Z;
  p_features : list Feature
}.
Arguments mkPage {Feature} _ _ _.
Arguments p_start {Feature} _.
Arguments p_count {Feature} _.
Arguments p_features {Feature} _.

Definition served {Feature} (env : Env Feature) (p : Page Feature) : Prop :=
  exists n, page_response env n (p_start p) (p_count p)
            = Body (FeatureCollection (p_features p)).

(** [Ascending lo hi ps]: the windows of the pages [ps] have positive sizes,
    lie in [lo, hi) and each starts at or after the end of the previous. *)
Inductive Ascending {Feature} : Z -> Z -> list (Page Feature) -> Prop :=
| Ascending_nil lo hi : lo <= hi -> Ascending lo hi []
| Ascending_cons lo hi p ps :
    lo <= p_start p -> 0 < p_count p ->
    Ascending (p_start p + p_count p) hi ps ->
    Ascending lo hi (p :: ps).

Definition records {Feature} (ps : list (Page Feature)) : list Feature :=
  concat (map p_features ps).

Section Vocabulary.
Context {Feature : Type}.
Variable env : Env Feature.

(** [log_quiet w w']: the log only grew, by entries no handler wrote. *)
Definition log_quiet (w w' : World Feature) : Prop :=
  exists added, log w' = log w ++ added /\
                Forall (fun e => from_handler e = false) added.

(** [log_only w w']: nothing but the log changed, and it grew quietly. *)
Definition log_only (w w' : World Feature) : Prop :=
  requests w' = requests w /\
  temp_chunks w' = temp_chunks w /\
  geopackage w' = geopackage w /\
  log_quiet w w'.

(** [calm_step w w']: the GeoPackage is untouched, requests were only
    added and the log grew quietly; the scratch directory may differ. *)
Definition calm_step (w w' : World Feature) : Prop :=
  geopackage w' = geopackage w /\
  log_quiet w w' /\
  (exists reqs, requests w' = requests w ++ reqs).

(** [quiet_step w w']: a calm step that leaves the scratch directory as it
    was. *)
Definition quiet_step (w w' : World Feature) : Prop :=
  temp_chunks w' = temp_chunks w /\
  geopackage w' = geopackage w /\
  log_quiet w w' /\
  (exists reqs, requests w' = requests w ++ reqs).

(** The result [fs] of a call on the window [(start_index, count)]: it is
    the records of pages the server delivered, for windows inside the
    requested one, concatenated in ascending window order. *)
Definition fetch_post (start_index count : Z) (w : World Feature)
    (fs : list Feature) (w' : World Feature) : Prop :=
  quiet_step w w' /\
  (1 <= count ->
   exists pages, fs = records pages /\
                 Ascending start_index (start_index + count) pages /\
                 Forall (served env) pages).

(** [Blocks lo items]: the scratch files [items] (window start, content)
    belong to windows of [CHUNK_SIZE] features that start at or after [lo]
    and do not overlap; each content is non-empty and is the records of
    pages delivered for windows inside the file's window, in ascending
    order. *)
Inductive Blocks : Z -> list (Z * list Feature) -> Prop :=
| Blocks_nil lo : Blocks lo []
| Blocks_cons lo p c pages items :
    lo <= p -> c <> [] -> c = records pages ->
    Ascending p (p + CHUNK_SIZE) pages -> Forall (served env) pages ->
    Blocks (p + CHUNK_SIZE) items ->
    Blocks lo ((p, c) :: items).

Definition readable (item : Z * list Feature) : bool :=
  geojson_readable env (fst item) (snd item).

(** The total [get_feature_count] reports for the answer of the server. *)
Definition reported_count : Z :=
  match hits_response env with
  | HitsXml (AttrInt n) => n
  | _ => 0
  end.

(** The GeoPackage on disk holds exactly the reported number of rows. *)
Definition complete (w : World Feature) : Prop :=
  exists rows, geopackage w = Some (Table rows) /\
               Z.of_nat (length rows) = reported_count.

(** What a run of [process_layer] does, by the [return] it leaves through. *)
Definition layer_post (w : World Feature) (outcome : LayerOutcome)
    (w' : World Feature) : Prop :=
  match outcome with
  | NothingToFetch => reported_count = 0 /\ log_only w w'
  | AlreadyComplete => reported_count <> 0 /\ complete w /\ log_only w w'
  | NoValidGeoDataFrames l =>
      reported_count <> 0 /\ ~ complete w /\
      geopackage w' = geopackage w /\
      exists items, Blocks 0 items /\ tmp_files l = map fst items /\
                    List.filter readable items = []
  | Saved l combined =>
      reported_count <> 0 /\ ~ complete w /\
      geopackage w' = Some (Table combined) /\
      exists items, Blocks 0 items /\ tmp_files l = map fst items /\
                    List.filter readable items <> [] /\
                    combined = concat (map snd (List.filter readable items))
  end.

(** Ascending order by the sort key. *)
Definition key_le (key : Feature -> Z) (x y : Feature) : Prop := key x <= key y.

(** *** Accounting for the offsets of a layer *)

(** The request [r], sent after [n] others, was answered with a page. *)
Definition answered (n : nat) (r : Z * Z) : bool :=
  match page_response env n (fst r) (snd r) with
  | Body _ => true
  | _ => false
  end.

Definition in_window (o start count : Z) : bool :=
  (start <=? o) && (o <? start + count).

(** Offset [o] lies in the window of a request that was answered with a
    page. *)
Definition covered_by_page (reqs : list (Z * Z)) (o : Z) : bool :=
  existsb (fun nr => answered (fst nr) (snd nr)
                     && in_window o (fst (snd nr)) (snd (snd nr)))
          (combine (seq 0 (length reqs)) reqs).

(** Offset [o] lies in a range of the missing list. *)
Definition recorded_missing (missing : list (Z * PageUrl)) (o : Z) : bool :=
  existsb (fun m => in_window o (q_startIndex (snd m)) (q_count (snd m))) missing.

Definition accounted (w' : World Feature) (l : Locals) (o : Z) : bool :=
  covered_by_page (requests w') o || recorded_missing (missing_chunks l) o.

(** The requests a call sent after the request for its own window. *)
Definition sub_requests (w w' : World Feature) : list (Z * Z) :=
  skipn (S (length (requests w))) (requests w').

End Vocabulary.

(** ** Worlds and servers used in the examples *)

Definition empty_world : World Z :=
  {| requests := []; log := []; temp_chunks := ∅; geopackage := None |}.

(** A server on which every page request times out. *)
Definition always_timeout : Env Z :=
  {| page_response := fun _ _ _ => Timeout;
     hits_response := HitsXml (AttrInt 2000);
     geojson_readable := fun _ _ => true |}.

(** A layer of 2000 features on a server that answers the window of 200
    features at offset 0 with one record and times out on every other
    request. *)
Definition spotty_server : Env Z :=
  {| page_response := fun _ s c =>
       if (s =? 0) && (c =? 200) then Body (FeatureCollection [7]) else Timeout;
     hits_response := HitsXml (AttrInt 2000);
     geojson_readable := fun _ _ => true |}.

(** A layer of 2000 features on a server that times out on windows of 2000
    features and answers every other window with the record whose key is
    the window's offset. *)
Definition slow_server : Env Z :=
  {| page_response := fun _ s c =>
       if c =? 2000 then Timeout else Body (FeatureCollection [s]);
     hits_response := HitsXml (AttrInt 2000);
     geojson_readable := fun _ _ => true |}.

(** As [slow_server], with scratch files geopandas cannot read back. *)
Definition unreadable_server : Env Z :=
  {| page_response := page_response slow_server;
     hits_response := HitsXml (AttrInt 2000);
     geojson_readable := fun _ _ => false |}.

(** A server whose count request fails. *)
Definition no_count_server : Env Z :=
  {| page_response := page_response slow_server;
     hits_response := HitsFailed;
     geojson_readable := fun _ _ => true |}.

(** A layer of two features that is already on disk. *)
Definition small_server : Env Z :=
  {| page_response := page_response slow_server;
     hits_response := HitsXml (AttrInt 2);
     geojson_readable := fun _ _ => true |}.

Definition downloaded_world : World Z :=
  {| requests := []; log := []; temp_chunks := ∅;
     geopackage := Some (Table [10; 11]) |}.

(** ** File names *)

(** The names [process_layer] and [check_existing_geopackage] build from
    [layer_name]: the GeoPackage [f"{layer_name.replace(':', '_')}.gpkg"]
    in [OUTPUT_DIR], the layer inside it [layer_name.split(":")[-1]], and
    the scratch file
    [f"{layer_name.replace(':', '_')}_chunk_{start}.geojson"] in
    [TEMP_DIR].  Strings are sequences of bytes (UTF-8). *)
Module Paths.
Import Ascii String.
Local Open Scope string_scope.

(** [s.replace(':', '_')] *)
Fixpoint replace_colon (s : string) : string :=
  match s with
  | EmptyString => EmptyString
  | String c rest =>
      String (if Ascii.eqb c ":" then "_"%char else c) (replace_colon rest)
  end.

(** [s.split(":")]: the pieces between the colons, at least one. *)
Fixpoint split_colon (s : string) : list string :=
  match s with
  | EmptyString => [EmptyString]
  | String c rest =>
      if Ascii.eqb c ":" then EmptyString :: split_colon rest
      else
        match split_colon rest with
        | piece :: pieces => String c piece :: pieces
        | [] => [String c EmptyString]
        end
  end.

(** [str(n)] for an integer: decimal digits, with a minus sign for a
    negative number. *)
Definition str (n : Z) : string :=
  DecimalString.NilZero.string_of_int (Z.to_int n).

Definition gpkg_file (layer_name : string) : string :=
  replace_colon layer_name ++ ".gpkg".

Definition gpkg_layer (layer_name : string) : string :=
  List.last (split_colon layer_name) EmptyString.

Definition tmp_file (layer_name : string) (start : Z) : string :=
  replace_colon layer_name ++ "_chunk_" ++ str start ++ ".geojson".

(** The byte [c] occurs in [s]. *)
Definition occurs (c : ascii) (s : string) : Prop :=
  In c (list_ascii_of_string s).

End Paths.

(** ** Vocabulary of the further properties *)

(** [Interleave xs ls rs]: [xs] is [ls] and [rs] shuffled together, each in
    its own order. *)
Inductive Interleave {A : Type} : list A -> list A -> list A -> Prop :=
| Interleave_nil : Interleave [] [] []
| Interleave_left x xs ls rs :
    Interleave xs ls rs -> Interleave (x :: xs) (x :: ls) rs
| Interleave_right x xs ls rs :
    Interleave xs ls rs -> Interleave (x :: xs) ls (x :: rs).

(** The locals a run of [process_layer] ended with, when it reached the
    download loop. *)
Definition locals_of {Feature} (outcome : @LayerOutcome Feature) : option Locals :=
  match outcome with
  | NoValidGeoDataFrames l | Saved l _ => Some l
  | NothingToFetch | AlreadyComplete => None
  end.

(** The scratch files a run wrote. *)
Definition written_by {Feature} (outcome : @LayerOutcome Feature) : list Z :=
  match locals_of outcome with
  | Some l => tmp_files l
  | None => []
  end.

(** The records of an answer, as the fetcher takes them. *)
Definition answer_features {Feature} (r : HttpResult Feature) : list Feature :=
  match r with
  | Body (FeatureCollection features) => features
  | _ => []
  end.

(** The windows of [CHUNK_SIZE] features at the given starts. *)
Definition chunk_windows (starts : list Z) : list (Z * Z) :=
  map (fun start => (start, CHUNK_SIZE)) starts.

(** A layer of three features on a server that delivers them in one page
    and never times out. *)
Definition tiny_server : Env Z :=
  {| page_response := fun _ s _ =>
       if s =? 0 then Body (FeatureCollection [1; 2; 3]) else OtherFailure;
     hits_response := HitsXml (AttrInt 3);
     geojson_readable := fun _ _ => true |}.

(** A server that times out on the first page request only and answers
    every later one with the record keyed by the window's offset. *)
Definition flaky_once_server : Env Z :=
  {| page_response := fun n s _ =>
       match n with O => Timeout | S _ => Body (FeatureCollection [s]) end;
     hits_response := HitsXml (AttrInt 2000);
     geojson_readable := fun _ _ => true |}.

(** A server whose count response carries a negative total. *)
Definition negative_count_server : Env Z :=
  {| page_response := page_response slow_server;
     hits_response := HitsXml (AttrInt (-1));
     geojson_readable := fun _ _ => true |}.

(** [CallChain call ws w fss w']: [call] is applied to the windows [ws] one
    after the other, from the world [w] to the world [w'], each call
    starting in the world the previous one left; [fss] are the results. *)
Inductive CallChain {Feature : Type}
    (call : Z -> Z -> World Feature -> Result (list Feature) * World Feature)
  : list (Z * Z) -> World Feature -> list (list Feature) -> World Feature -> Prop :=
| CallChain_nil w : CallChain call [] w [] w
| CallChain_cons s c ws w fs w1 fss w' :
    call s c w = (Ok fs, w1) ->
    CallChain call ws w1 fss w' ->
    CallChain call ((s, c) :: ws) w (fs :: fss) w'.

(** * Properties *)

(** ** [range] and the windows of a shrink retry *)

Lemma range_len_pos a count step :
  0 < step -> 0 < count ->
  range_len a (a + count) step = 1 + (count - 1) / step.
Proof.
  intros Hs Hc. unfold range_len.
  destruct (Z.ltb_spec 0 step); [|lia].
  destruct (Z.ltb_spec a (a + count)); [|lia].
  simpl. f_equal. f_equal. lia.
Qed.

Lemma range_len_pieces count step :
  0 < step -> 0 < count ->
  Z.to_nat (1 + (count - 1) / step) = pieces count step.
Proof.
  intros Hs Hc. unfold pieces. f_equal.
  replace (count + step - 1) with (count - 1 + 1 * step) by lia.
  rewrite Z.div_add by lia. lia.
Qed.

Lemma py_range_pos a count step :
  0 < step -> 0 < count ->
  py_range a (a + count) step
  = Some (map (fun i : nat => a + Z.of_nat i * step) (seq 0 (pieces count step))).
Proof.
  intros Hs Hc. unfold py_range.
  destruct (Z.eqb_spec step 0); [lia|].
  rewrite range_len_pos, range_len_pieces by assumption. reflexivity.
Qed.

Lemma pieces_bounds count step :
  0 < step -> 0 < count ->
  (0 < pieces count step)%nat /\
  (Z.of_nat (pieces count step) - 1) * step < count <= Z.of_nat (pieces count step) * step.
Proof.
  intros Hs Hc. rewrite <- range_len_pieces by assumption.
  assert (H0 : 0 <= (count - 1) / step) by (apply Z.div_pos; lia).
  rewrite Z2Nat.id by lia.
  pose proof (Z.mul_div_le (count - 1) step Hs).
  pose proof (Z.mul_succ_div_gt (count - 1) step Hs).
  split; [lia|]. nia.
Qed.

(** The windows cut from [rem] remaining features, [n] pieces of [step]. *)
Lemma windows_tiling step :
  0 < step ->
  forall (n : nat) a rem,
    (n = 0%nat -> rem = 0) ->
    (n <> 0%nat -> (Z.of_nat n - 1) * step < rem <= Z.of_nat n * step) ->
    Tiling a (a + rem)
      (map (fun i : nat => (a + Z.of_nat i * step, Z.min step (rem - Z.of_nat i * step)))
           (seq 0 n)).
Proof.
  intros Hs n. induction n as [|n IH]; intros a rem H0 H1.
  - rewrite H0 by reflexivity. simpl. rewrite Z.add_0_r. constructor.
  - assert (Hb : (Z.of_nat (S n) - 1) * step < rem <= Z.of_nat (S n) * step)
      by (apply H1; discriminate).
    simpl seq. rewrite <- seq_shift. cbn [map]. rewrite map_map.
    replace (a + Z.of_nat 0 * step) with a by (simpl; lia).
    replace (rem - Z.of_nat 0 * step) with rem by (simpl; lia).
    constructor.
    + lia.
    + specialize (IH (a + Z.min step rem) (rem - Z.min step rem)).
      replace (a + Z.min step rem + (rem - Z.min step rem)) with (a + rem) in IH by lia.
      destruct n as [|n].
      * simpl. replace (Z.min step rem) with rem by lia.
        replace (a + rem) with (a + rem + 0) at 2 by lia.
        rewrite Z.add_0_r. constructor.
      * assert (Hmin : Z.min step rem = step) by nia.
        rewrite Hmin in IH. rewrite Hmin.
        erewrite map_ext; [apply IH|].
        -- discriminate.
        -- intros _. nia.
        -- intros i. simpl. f_equal; [lia|]. f_equal. lia.
Qed.

Lemma Tiling_total_size lo hi ws : Tiling lo hi ws -> total_size ws = hi - lo.
Proof.
  induction 1 as [lo|lo hi c ws Hc Ht IH]; unfold total_size in *; simpl; lia.
Qed.

Lemma Tiling_sizes_pos lo hi ws : Tiling lo hi ws -> Forall (fun w => 0 < snd w) ws.
Proof. induction 1; constructor; auto. Qed.

Lemma Tiling_bounds lo hi ws :
  Tiling lo hi ws -> Forall (fun w => lo <= fst w /\ fst w + snd w <= hi) ws /\ lo <= hi.
Proof.
  induction 1 as [lo|lo hi c ws Hc Ht [IH1 IH2]].
  - split; [constructor | lia].
  - split; [|lia]. constructor; [simpl; lia|].
    eapply Forall_impl; [exact IH1|]. simpl. intros w Hw. lia.
Qed.

Section Fetcher.
Context {Feature : Type}.
Variable env : Env Feature.

Lemma logger_eq lvl msg (w : World Feature) :
  logger lvl msg w = (Ok tt, logged lvl msg w).
Proof. reflexivity. Qed.

(** [fetch_features] sends exactly one request and acts on its answer. *)
Lemma fetch_features_eq start_index count w :
  fetch_features env start_index count w =
  match page_response env (length (requests w)) start_index count with
  | Body data => (Ok (Some data), sent start_index count w)
  | Timeout =>
      (Raised TimeoutExn,
       logged Warning (TimeoutFetching start_index count) (sent start_index count w))
  | OtherFailure =>
      (Ok None, logged Error (FailedFetch start_index count) (sent start_index count w))
  end.
Proof.
  unfold fetch_features, bind, http_get.
  destruct (page_response env (length (requests w)) start_index count); reflexivity.
Qed.

(** One step of the fetcher, by the answer to its request. *)
Lemma fetch_fuel_eq fuel start_index count min_chunk w :
  fetch_features_with_retry_fuel env (S fuel) start_index count min_chunk w =
  match page_response env (length (requests w)) start_index count with
  | Body data => (Ok (features_of (Some data)), sent start_index count w)
  | OtherFailure =>
      (Ok [], logged Error (FailedFetch start_index count) (sent start_index count w))
  | Timeout =>
      let w1 := logged Warning (TimeoutFetching start_index count)
                  (sent start_index count w) in
      if count <=? min_chunk then
        (Ok [], logged Error (MinChunkReached start_index) w1)
      else
        let small_count := Z.max (Z.quot count 10) min_chunk in
        let w2 := logged Warning (RetrySmaller start_index count small_count) w1 in
        match py_range start_index (start_index + count) small_count with
        | None => (Raised ValueError, w2)
        | Some sub_starts =>
            retry_loop (fetch_features_with_retry_fuel env fuel)
              start_index count small_count min_chunk sub_starts [] w2
        end
  end.
Proof.
  cbn [fetch_features_with_retry_fuel]. rewrite fetch_features_eq.
  destruct (page_response env (length (requests w)) start_index count)
    as [| |data]; try reflexivity.
  cbv zeta. destruct (count <=? min_chunk); [reflexivity|].
  unfold bind. rewrite logger_eq.
  destruct (py_range _ _ _); reflexivity.
Qed.

(** The floor: a timeout on a window of at most [min_chunk] features ends
    the recursion with an empty list; the only trace is two log lines. *)
Lemma fetch_fuel_floor fuel start_index count min_chunk w :
  page_response env (length (requests w)) start_index count = Timeout ->
  count <= min_chunk ->
  fetch_features_with_retry_fuel env (S fuel) start_index count min_chunk w =
  (Ok [], logged Error (MinChunkReached start_index)
            (logged Warning (TimeoutFetching start_index count)
               (sent start_index count w))).
Proof.
  intros Ht Hc. rewrite fetch_fuel_eq, Ht. cbv zeta.
  destruct (Z.leb_spec count min_chunk); [reflexivity | lia].
Qed.

(** C6. Only a timeout starts shrink retries.  When the server answers the
    request for a window with a page of records, the fetcher returns those
    records as they are (an empty page gives the empty list) after that
    single request; when the request fails in another way than a timeout,
    the fetcher logs the failure and returns the empty list, again after
    that single request: no smaller window is requested and nothing is
    retried. *)
Theorem only_timeout_shrinks start_index count min_chunk (w : World Feature) :
  let answer := page_response env (length (requests w)) start_index count in
  (forall features,
      answer = Body (FeatureCollection features) ->
      fetch_features_with_retry env start_index count min_chunk w
      = (Ok features, sent start_index count w)) /\
  (answer = Body OtherJson ->
      fetch_features_with_retry env start_index count min_chunk w
      = (Ok [], sent start_index count w)) /\
  (answer = OtherFailure ->
      fetch_features_with_retry env start_index count min_chunk w
      = (Ok [], logged Error (FailedFetch start_index count)
                  (sent start_index count w))).
Proof.
  cbv zeta. unfold fetch_features_with_retry, retry_fuel.
  repeat split; [intros features H | intros H | intros H];
    rewrite fetch_fuel_eq, H; reflexivity.
Qed.

(** The shrink step: the recursive calls and the windows they are made on. *)
Lemma shrink_step fuel start_index count min_chunk (w : World Feature) :
  1 <= min_chunk -> min_chunk < count ->
  page_response env (length (requests w)) start_index count = Timeout ->
  let small_count := Z.max (count / 10) min_chunk in
  let sub_starts :=
    map (fun i : nat => start_index + Z.of_nat i * small_count)
        (seq 0 (pieces count small_count)) in
  let windows := sub_windows start_index count small_count sub_starts in
  fetch_features_with_retry_fuel env (S fuel) start_index count min_chunk w
  = retry_loop (fetch_features_with_retry_fuel env fuel)
      start_index count small_count min_chunk sub_starts []
      (logged Warning (RetrySmaller start_index count small_count)
         (logged Warning (TimeoutFetching start_index count)
            (sent start_index count w))) /\
  Tiling start_index (start_index + count) windows /\
  total_size windows = count /\
  Forall (fun win => snd win = small_count) (removelast windows) /\
  Forall (fun win => 1 <= snd win <= small_count) windows.
Proof.
  intros Hm Hc Ht small_count sub_starts windows.
  assert (Hq : Z.quot count 10 = count / 10) by (apply Z.quot_div_nonneg; lia).
  assert (Hs : 0 < small_count) by (unfold small_count; lia).
  assert (Hcount : 0 < count) by lia.
  destruct (pieces_bounds count small_count Hs Hcount) as [Hn Hb].
  assert (Hw : windows =
    map (fun i : nat => (start_index + Z.of_nat i * small_count,
                         Z.min small_count (count - Z.of_nat i * small_count)))
        (seq 0 (pieces count small_count))).
  { unfold windows, sub_windows, sub_starts. rewrite map_map.
    apply map_ext. intros i. f_equal. f_equal. lia. }
  assert (Htil : Tiling start_index (start_index + count) windows).
  { rewrite Hw. apply windows_tiling; [assumption | lia | intros _; assumption]. }
  split; [|split; [|split; [|split]]].
  - rewrite fetch_fuel_eq, Ht. cbv zeta.
    destruct (Z.leb_spec count min_chunk); [lia|].
    rewrite Hq. fold small_count.
    rewrite (py_range_pos start_index count small_count Hs Hcount).
    reflexivity.
  - exact Htil.
  - rewrite (Tiling_total_size _ _ _ Htil). lia.
  - rewrite Hw. destruct (pieces count small_count) as [|n] eqn:En; [constructor|].
    replace (S n) with (n + 1)%nat by lia.
    rewrite seq_app, map_app. simpl. rewrite removelast_last.
    apply Forall_forall. intros win Hin.
    apply list_elem_of_In, in_map_iff in Hin. destruct Hin as [i [<- Hi]].
    apply in_seq in Hi. simpl. nia.
  - rewrite Hw. apply Forall_forall. intros win Hin.
    apply list_elem_of_In, in_map_iff in Hin. destruct Hin as [i [<- Hi]].
    apply in_seq in Hi. simpl. nia.
Qed.

Lemma quiet_refl (w : World Feature) : quiet_step w w.
Proof.
  repeat split; try reflexivity.
  - exists []. rewrite app_nil_r. split; [reflexivity | constructor].
  - exists []. rewrite app_nil_r. reflexivity.
Qed.

Lemma quiet_trans (w1 w2 w3 : World Feature) : quiet_step w1 w2 -> quiet_step w2 w3 -> quiet_step w1 w3.
Proof.
  intros (Ht1 & Hg1 & (a1 & Hl1 & Hq1) & (r1 & Hr1))
         (Ht2 & Hg2 & (a2 & Hl2 & Hq2) & (r2 & Hr2)).
  repeat split.
  - congruence.
  - congruence.
  - exists (a1 ++ a2). rewrite Hl2, Hl1, app_assoc. split; [reflexivity|].
    apply Forall_app; split; assumption.
  - exists (r1 ++ r2). rewrite Hr2, Hr1, app_assoc. reflexivity.
Qed.

Lemma quiet_sent start_index count (w : World Feature) : quiet_step w (sent start_index count w).
Proof.
  repeat split; try reflexivity.
  - exists []. simpl. rewrite app_nil_r. split; [reflexivity | constructor].
  - exists [(start_index, count)]. reflexivity.
Qed.

Lemma quiet_logged lvl msg (w : World Feature) :
  from_handler (lvl, msg) = false -> quiet_step w (logged lvl msg w).
Proof.
  intros H. repeat split; try reflexivity.
  - exists [(lvl, msg)]. split; [reflexivity|]. repeat constructor. exact H.
  - exists []. simpl. rewrite app_nil_r. reflexivity.
Qed.

Lemma Ascending_weaken lo lo' hi (ps : list (Page Feature)) :
  lo' <= lo -> Ascending lo hi ps -> Ascending lo' hi ps.
Proof.
  intros Hlo H. destruct H; constructor; try assumption; lia.
Qed.

Lemma Ascending_app lo mid hi (ps1 ps2 : list (Page Feature)) :
  Ascending lo mid ps1 -> Ascending mid hi ps2 -> Ascending lo hi (ps1 ++ ps2).
Proof.
  induction 1 as [lo mid Hle|lo mid p ps Hlo Hc Hps IH]; intros H2; simpl.
  - eapply Ascending_weaken; eassumption.
  - constructor; auto.
Qed.

Lemma records_app (ps1 ps2 : list (Page Feature)) :
  records (ps1 ++ ps2) = records ps1 ++ records ps2.
Proof. unfold records. rewrite map_app, concat_app. reflexivity. Qed.

(** The loop over the sub-windows, when every recursive call returns. *)
Lemma retry_loop_spec rec start_index count small_count min_chunk :
  forall sub_starts lo acc w,
    Tiling lo (start_index + count)
      (sub_windows start_index count small_count sub_starts) ->
    (forall s c w1,
        In (s, c) (sub_windows start_index count small_count sub_starts) ->
        exists fs w2, rec s c min_chunk w1 = (Ok fs, w2) /\ fetch_post env s c w1 fs w2) ->
    exists fs w',
      retry_loop rec start_index count small_count min_chunk sub_starts acc w
      = (Ok (acc ++ fs), w') /\
      quiet_step w w' /\
      exists pages, fs = records pages /\
                    Ascending lo (start_index + count) pages /\
                    Forall (served env) pages.
Proof.
  induction sub_starts as [|s rest IH]; intros lo acc w Htil Hrec.
  - exists [], w. simpl. rewrite app_nil_r.
    split; [reflexivity|]. split; [apply quiet_refl|].
    exists []. split; [reflexivity|]. split; [|constructor].
    constructor. apply Tiling_bounds in Htil. lia.
  - simpl in Htil. inversion Htil as [|lo0 hi0 c ws Hc Hrest]; subst.
    destruct (Hrec s (Z.min small_count (start_index + count - s)) w
                (or_introl eq_refl)) as (fs1 & w1 & E1 & Hq1 & Hp1).
    destruct (Hp1 ltac:(lia)) as (pages1 & -> & Ha1 & Hs1).
    destruct (IH _ (acc ++ records pages1) w1 Hrest) as (fs2 & w' & E2 & Hq2 & pages2 & -> & Ha2 & Hs2).
    { intros s' c' w' Hin. apply Hrec. right. exact Hin. }
    exists (records pages1 ++ records pages2), w'.
    split; [|split].
    + cbn [retry_loop]. unfold bind at 1. unfold try_except, bind at 1.
      rewrite E1. unfold ret at 1. rewrite E2, app_assoc. reflexivity.
    + eapply quiet_trans; eassumption.
    + exists (pages1 ++ pages2). split; [symmetry; apply records_app|].
      split; [eapply Ascending_app; eassumption | apply Forall_app; split; assumption].
Qed.

Lemma pow10_pos (k : nat) : 0 < 10 ^ Z.of_nat k.
Proof. apply Z.pow_pos_nonneg; lia. Qed.

(** With a floor of at least one, [k + 1] units of fuel carry a window of
    at most [min_chunk * 10 ^ k] features to its result. *)
Lemma fetch_fuel_total min_chunk :
  1 <= min_chunk ->
  forall (k : nat) start_index count w,
    count <= min_chunk * 10 ^ Z.of_nat k ->
    exists fs w',
      fetch_features_with_retry_fuel env (S k) start_index count min_chunk w
      = (Ok fs, w') /\
      fetch_post env start_index count w fs w'.
Proof.
  intros Hm k. induction k as [|k IH]; intros start_index count w Hk.
  all: rewrite fetch_fuel_eq.
  all: destruct (page_response env (length (requests w)) start_index count)
         as [| |[features|]] eqn:Ha.
  all: try (eexists _, _; split; [reflexivity|]; split;
            [first [apply quiet_sent
                   | eapply quiet_trans; [apply quiet_sent | apply quiet_logged; reflexivity]]|];
            intros Hc;
            first [ exists [mkPage start_index count features];
                    split; [unfold records; simpl; rewrite app_nil_r; reflexivity|];
                    split; [constructor; simpl; try lia; constructor; lia
                           | repeat constructor; exists (length (requests w)); exact Ha]
                  | exists []; split; [reflexivity|];
                    split; [constructor; lia | constructor] ]).
  all: cbv zeta; destruct (Z.leb_spec count min_chunk) as [Hle|Hgt].
  all: try (eexists _, _; split; [reflexivity|]; split;
            [eapply quiet_trans; [apply quiet_sent|];
             eapply quiet_trans; apply quiet_logged; reflexivity|];
            intros Hc; exists []; split; [reflexivity|];
            split; [constructor; lia | constructor]).
  - simpl in Hk. lia.
  - set (small_count := Z.max (Z.quot count 10) min_chunk).
    assert (Hq : Z.quot count 10 = count / 10) by (apply Z.quot_div_nonneg; lia).
    assert (Hs : 0 < small_count) by (unfold small_count; lia).
    assert (Hcount : 0 < count) by lia.
    pose proof (pow10_pos k) as Hp.
    assert (Hsmall : small_count <= min_chunk * 10 ^ Z.of_nat k).
    { unfold small_count. rewrite Hq. apply Z.max_lub; [|nia].
      apply Z.div_le_upper_bound; [lia|].
      rewrite Nat2Z.inj_succ, Z.pow_succ_r in Hk by lia. lia. }
    destruct (shrink_step k start_index count min_chunk w Hm Hgt Ha)
      as (_ & Htil & _ & _ & Hsize).
    rewrite <- Hq in Htil, Hsize. fold small_count in Htil, Hsize.
    rewrite (py_range_pos start_index count small_count Hs Hcount).
    edestruct (retry_loop_spec (fetch_features_with_retry_fuel env (S k))
                 start_index count small_count min_chunk) as (fs & w' & E & Hq' & Hpages).
    + exact Htil.
    + intros s c w1 Hin. apply IH.
      rewrite Forall_forall in Hsize. apply list_elem_of_In, Hsize in Hin.
      simpl in Hin. lia.
    + rewrite E. exists fs, w'. split; [reflexivity|]. split.
      * eapply quiet_trans; [apply quiet_sent|].
        eapply quiet_trans;
          [apply (quiet_logged Warning (TimeoutFetching start_index count));
           reflexivity|].
        eapply quiet_trans; [|exact Hq']. apply quiet_logged. reflexivity.
      * intros _. exact Hpages.
Qed.

Lemma retry_fuel_covers min_chunk count :
  1 <= min_chunk -> count <= min_chunk * 10 ^ Z.of_nat (Z.to_nat (Z.log2_up count)).
Proof.
  intros Hm. pose proof (Z.log2_up_nonneg count) as Hn.
  rewrite Z2Nat.id by assumption.
  assert (H2 : 2 ^ Z.log2_up count <= 10 ^ Z.log2_up count)
    by (apply Z.pow_le_mono_l; lia).
  assert (Hc : count <= 2 ^ Z.log2_up count).
  { destruct (Z_lt_le_dec 1 count) as [H1|H1].
    - apply Z.log2_up_spec. exact H1.
    - pose proof (Z.pow_pos_nonneg 2 (Z.log2_up count) ltac:(lia) Hn). lia. }
  nia.
Qed.

(** With a floor of at least one the fetcher returns a list on every window
    and in every world. *)
Lemma fetch_total start_index count min_chunk w :
  1 <= min_chunk ->
  exists fs w',
    fetch_features_with_retry env start_index count min_chunk w = (Ok fs, w') /\
    fetch_post env start_index count w fs w'.
Proof.
  intros Hm. unfold fetch_features_with_retry, retry_fuel.
  apply fetch_fuel_total; [assumption | apply retry_fuel_covers; assumption].
Qed.

(** *** Fuel only has to be enough *)

Lemma retry_loop_mono (rec1 rec2 : Z -> Z -> Z -> M Feature (list Feature))
    start_index count small_count min_chunk :
  (forall s c m w r w', rec1 s c m w = (r, w') -> r <> OutOfFuel ->
                        rec2 s c m w = (r, w')) ->
  forall sub_starts acc w r w',
    retry_loop rec1 start_index count small_count min_chunk sub_starts acc w = (r, w') ->
    r <> OutOfFuel ->
    retry_loop rec2 start_index count small_count min_chunk sub_starts acc w = (r, w').
Proof.
  intros Hrec. induction sub_starts as [|s rest IH]; intros acc w r w' E Hr.
  - exact E.
  - cbn [retry_loop] in *. unfold bind at 1 in E. unfold bind at 1.
    unfold try_except, bind at 1 in E. unfold try_except, bind at 1.
    destruct (rec1 s (Z.min small_count (start_index + count - s)) min_chunk w)
      as [[fs|e|] w1] eqn:E1.
    + rewrite (Hrec _ _ _ _ _ _ E1) by discriminate.
      unfold ret at 1 in E. unfold ret at 1. apply IH; assumption.
    + rewrite (Hrec _ _ _ _ _ _ E1) by discriminate.
      unfold bind at 1 in E. unfold bind at 1. rewrite logger_eq in *.
      unfold ret at 1 in E. unfold ret at 1. apply IH; assumption.
    + inversion E; subst. contradiction.
Qed.

Lemma fetch_fuel_mono fuel :
  forall fuel' start_index count min_chunk w r w',
    (fuel <= fuel')%nat ->
    fetch_features_with_retry_fuel env fuel start_index count min_chunk w = (r, w') ->
    r <> OutOfFuel ->
    fetch_features_with_retry_fuel env fuel' start_index count min_chunk w = (r, w').
Proof.
  induction fuel as [|fuel IH]; intros fuel' start_index count min_chunk w r w' Hle E Hr.
  - inversion E; subst. contradiction.
  - destruct fuel' as [|fuel']; [lia|].
    rewrite fetch_fuel_eq in *.
    destruct (page_response env (length (requests w)) start_index count); try exact E.
    cbv zeta in *. destruct (count <=? min_chunk); [exact E|].
    destruct (py_range _ _ _); [|exact E].
    eapply retry_loop_mono; [|exact E|exact Hr].
    intros s c m w1 r1 w1' E1 Hr1. eapply IH; [lia | exact E1 | exact Hr1].
Qed.

End Fetcher.

Section Layer.
Context {Feature : Type}.
Variable env : Env Feature.

Lemma quiet_calm (w w' : World Feature) : quiet_step w w' -> calm_step w w'.
Proof. intros (_ & Hg & Hl & Hr). repeat split; assumption. Qed.

Lemma calm_refl (w : World Feature) : calm_step w w.
Proof. apply quiet_calm, quiet_refl. Qed.

Lemma calm_trans (w1 w2 w3 : World Feature) : calm_step w1 w2 -> calm_step w2 w3 -> calm_step w1 w3.
Proof.
  intros (Hg1 & (a1 & Hl1 & Hq1) & (r1 & Hr1)) (Hg2 & (a2 & Hl2 & Hq2) & (r2 & Hr2)).
  repeat split.
  - congruence.
  - exists (a1 ++ a2). rewrite Hl2, Hl1, app_assoc. split; [reflexivity|].
    apply Forall_app; split; assumption.
  - exists (r1 ++ r2). rewrite Hr2, Hr1, app_assoc. reflexivity.
Qed.

Lemma calm_logged lvl msg (w : World Feature) :
  from_handler (lvl, msg) = false -> calm_step w (logged lvl msg w).
Proof. intros H. apply quiet_calm, quiet_logged, H. Qed.

Lemma calm_set_temp t (w : World Feature) : calm_step w (set_temp_chunks t w).
Proof.
  repeat split; try reflexivity.
  - exists []. simpl. rewrite app_nil_r. split; [reflexivity | constructor].
  - exists []. simpl. rewrite app_nil_r. reflexivity.
Qed.

Lemma Blocks_weaken lo lo' items : lo' <= lo -> Blocks env lo items -> Blocks env lo' items.
Proof.
  intros Hlo H. destruct H; [constructor|].
  econstructor; try eassumption. lia.
Qed.

Lemma Blocks_lower lo items : Blocks env lo items -> Forall (fun it => lo <= fst it) items.
Proof.
  induction 1 as [lo|lo p c pages items Hlo Hne Hc Ha Hs Hb IH]; constructor.
  - exact Hlo.
  - eapply Forall_impl; [exact IH|]. simpl. intros it Hit.
    unfold CHUNK_SIZE in Hit. lia.
Qed.

(** One window of the download loop: the fetcher returns a list, and the
    handler of line 151 is not entered. *)
Lemma download_window_eq count l start w :
  exists fs w1,
    fetch_features_with_retry env start CHUNK_SIZE 1 w = (Ok fs, w1) /\
    fetch_post env start CHUNK_SIZE w fs w1 /\
    download_window env count l start w =
    match fs with
    | [] => (Ok (add_missing start l), logged Warning (EmptyChunk start) w1)
    | _ :: _ =>
        let n := Z.of_nat (length fs) in
        (Ok {| tmp_files := tmp_files l ++ [start];
               total_fetched := total_fetched l + n;
               missing_chunks := missing_chunks l |},
         logged Info (FetchedChunk start (Z.min (start + CHUNK_SIZE) count) n)
           (set_temp_chunks (<[start := fs]> (temp_chunks w1))
              (logged Info (FetchedFeatures n start) w1)))
    end.
Proof.
  destruct (fetch_total env start CHUNK_SIZE 1 w ltac:(lia)) as (fs & w1 & E & Hpost).
  exists fs, w1. split; [exact E|]. split; [exact Hpost|].
  unfold download_window, bind at 1, try_except, bind at 1. rewrite E.
  unfold ret at 1. destruct fs; reflexivity.
Qed.

(** The download loop over the windows [a], [a + CHUNK_SIZE], ... *)
Lemma download_loop_spec count :
  forall (n : nat) a l w,
    exists l' w' items,
      for_each (download_window env count)
        (map (fun i : nat => a + Z.of_nat i * CHUNK_SIZE) (seq 0 n)) l w
      = (Ok l', w') /\
      calm_step w w' /\
      tmp_files l' = tmp_files l ++ map fst items /\
      Blocks env a items /\
      Forall (fun it => temp_chunks w' !! fst it = Some (snd it)) items /\
      (forall q, q < a -> temp_chunks w' !! q = temp_chunks w !! q).
Proof.
  induction n as [|n IH]; intros a l w.
  - exists l, w, []. simpl. rewrite app_nil_r.
    split; [reflexivity|]. split; [apply calm_refl|].
    split; [reflexivity|]. split; [constructor|]. split; [constructor|].
    reflexivity.
  - simpl seq. rewrite <- seq_shift. cbn [map]. rewrite map_map.
    replace (a + Z.of_nat 0 * CHUNK_SIZE) with a by (simpl; lia).
    erewrite map_ext
      with (g := fun i : nat => (a + CHUNK_SIZE) + Z.of_nat i * CHUNK_SIZE)
      by (intros i; lia).
    cbn [for_each]. unfold bind at 1.
    destruct (download_window_eq count l a w) as (fs & w1 & _ & (Hq & Hp) & ->).
    destruct fs as [|f fs].
    + destruct (IH (a + CHUNK_SIZE) (add_missing a l)
                  (logged Warning (EmptyChunk a) w1))
        as (l' & w' & items & E & Hcalm & Htmp & Hb & Hlook & Hframe).
      exists l', w', items. split; [exact E|]. split; [|split; [|split; [|split]]].
      * eapply calm_trans; [apply quiet_calm, Hq|].
        eapply calm_trans; [|exact Hcalm]. apply calm_logged. reflexivity.
      * exact Htmp.
      * eapply Blocks_weaken; [|exact Hb]. unfold CHUNK_SIZE. lia.
      * exact Hlook.
      * intros q Hlt. rewrite Hframe by (unfold CHUNK_SIZE; lia).
        simpl. destruct Hq as (Ht & _). rewrite Ht. reflexivity.
    + cbv beta iota zeta.
      match goal with
      | |- context [for_each _ _ ?l1 ?w2] =>
          destruct (IH (a + CHUNK_SIZE) l1 w2)
            as (l' & w' & items & E & Hcalm & Htmp & Hb & Hlook & Hframe)
      end.
      exists l', w', ((a, f :: fs) :: items).
      split; [exact E|]. split; [|split; [|split; [|split]]].
      * eapply calm_trans; [apply quiet_calm, Hq|].
        eapply calm_trans; [|exact Hcalm].
        eapply calm_trans; [|apply calm_logged; reflexivity].
        eapply calm_trans; [|apply calm_set_temp].
        apply calm_logged. reflexivity.
      * rewrite Htmp. simpl. rewrite <- app_assoc. reflexivity.
      * destruct (Hp ltac:(unfold CHUNK_SIZE; lia)) as (pages & Hrec & Hasc & Hserved).
        econstructor; try eassumption; [lia | discriminate].
      * constructor; [|exact Hlook].
        simpl. rewrite Hframe by (unfold CHUNK_SIZE; lia).
        simpl. apply lookup_insert_eq.
      * intros q Hlt. rewrite Hframe by (unfold CHUNK_SIZE; lia).
        simpl. rewrite lookup_insert_ne by lia.
        destruct Hq as (Ht & _). rewrite Ht. reflexivity.
Qed.

(** One scratch file of the merge loop, when the file is there. *)
Lemma merge_chunk_eq gdfs p c w :
  temp_chunks w !! p = Some c ->
  merge_chunk env gdfs p w =
  if geojson_readable env p c then
    (Ok (gdfs ++ [c]), set_temp_chunks (delete p (temp_chunks w)) w)
  else
    (Ok gdfs, set_temp_chunks (delete p (temp_chunks w))
                (logged Error (ErrorReadingTemp p) w)).
Proof.
  intros Hp. unfold merge_chunk. rewrite Hp.
  destruct (geojson_readable env p c).
  - unfold bind, remove_temp. rewrite Hp. reflexivity.
  - unfold bind. rewrite logger_eq. unfold remove_temp.
    cbn [temp_chunks logged]. rewrite Hp. reflexivity.
Qed.

(** The merge loop reads back every scratch file the download loop wrote
    and keeps those geopandas can read; no file is missing. *)
Lemma merge_loop_spec :
  forall items lo acc w,
    Blocks env lo items ->
    Forall (fun it => temp_chunks w !! fst it = Some (snd it)) items ->
    exists w',
      for_each (merge_chunk env) (map fst items) acc w
      = (Ok (acc ++ map snd (List.filter (readable env) items)), w') /\
      calm_step w w'.
Proof.
  induction items as [|[p c] items IH]; intros lo acc w Hb Hlook.
  - exists w. simpl. rewrite app_nil_r. split; [reflexivity | apply calm_refl].
  - inversion Hb as [|lo0 p0 c0 pages items0 Hlo Hne Hc Ha Hs Hrest]; subst.
    inversion Hlook as [|it its Hp Hothers]; subst. simpl in Hp.
    pose proof (Blocks_lower _ _ Hrest) as Hlower.
    assert (Hkeep : forall w1 : World Feature,
               temp_chunks w1 = temp_chunks w ->
               Forall (fun it => temp_chunks
                                   (set_temp_chunks (delete p (temp_chunks w1)) w1)
                                 !! fst it = Some (snd it))
                      items).
    { intros w1 Hw1. cbn [temp_chunks set_temp_chunks]. rewrite Hw1.
      apply Forall_forall. intros it Hin.
      rewrite Forall_forall in Hothers, Hlower.
      specialize (Hothers it Hin). specialize (Hlower it Hin). simpl in Hlower.
      rewrite lookup_delete_ne by (unfold CHUNK_SIZE in Hlower; lia).
      exact Hothers. }
    cbn [map fst for_each]. unfold bind at 1.
    rewrite (merge_chunk_eq acc p (records pages) w Hp).
    cbn [List.filter]. unfold readable at 1. cbn [fst snd].
    destruct (geojson_readable env p (records pages)) eqn:Er.
    + destruct (IH (p + CHUNK_SIZE) (acc ++ [records pages])
                  (set_temp_chunks (delete p (temp_chunks w)) w) Hrest
                  (Hkeep w eq_refl))
        as (w' & E & Hcalm).
      exists w'. split.
      * rewrite E. cbn [map snd]. rewrite <- app_assoc. reflexivity.
      * eapply calm_trans; [apply calm_set_temp | exact Hcalm].
    + destruct (IH (p + CHUNK_SIZE) acc
                  (set_temp_chunks
                     (delete p (temp_chunks w))
                     (logged Error (ErrorReadingTemp p) w)) Hrest
                  (Hkeep (logged Error (ErrorReadingTemp p) w) eq_refl))
        as (w' & E & Hcalm).
      exists w'. split.
      * exact E.
      * eapply calm_trans; [apply (calm_logged Error (ErrorReadingTemp p)); reflexivity|].
        eapply calm_trans; [apply calm_set_temp | exact Hcalm].
Qed.

Lemma log_only_refl (w : World Feature) : log_only w w.
Proof.
  repeat split. exists []. rewrite app_nil_r. split; [reflexivity | constructor].
Qed.

Lemma log_only_trans (w1 w2 w3 : World Feature) : log_only w1 w2 -> log_only w2 w3 -> log_only w1 w3.
Proof.
  intros (Hr1 & Ht1 & Hg1 & a1 & Hl1 & Hq1) (Hr2 & Ht2 & Hg2 & a2 & Hl2 & Hq2).
  repeat split; try congruence.
  exists (a1 ++ a2). rewrite Hl2, Hl1, app_assoc. split; [reflexivity|].
  apply Forall_app; split; assumption.
Qed.

Lemma log_only_logged lvl msg (w : World Feature) :
  from_handler (lvl, msg) = false -> log_only w (logged lvl msg w).
Proof.
  intros H. repeat split. exists [(lvl, msg)]. split; [reflexivity|].
  repeat constructor. exact H.
Qed.

Lemma log_only_calm (w w' : World Feature) : log_only w w' -> calm_step w w'.
Proof.
  intros (Hr & _ & Hg & Hl). repeat split; try assumption.
  exists []. rewrite app_nil_r. exact Hr.
Qed.

Lemma bind_ok {A B} (m : M Feature A) (k : A -> M Feature B) w a w' :
  m w = (Ok a, w') -> bind m k w = k a w'.
Proof. intros E. unfold bind. rewrite E. reflexivity. Qed.

Lemma get_feature_count_eq w :
  exists w', get_feature_count env w = (Ok (reported_count env), w') /\ log_only w w'.
Proof.
  unfold get_feature_count, reported_count.
  rewrite (bind_ok _ _ _ _ _ (logger_eq _ _ _)).
  destruct (hits_response env) as [|[| |n]].
  all: try rewrite (bind_ok _ _ _ _ _ (logger_eq _ _ _)).
  all: eexists; split; [reflexivity|].
  all: repeat (first [ apply log_only_logged; reflexivity
                     | eapply log_only_trans; [|apply log_only_logged; reflexivity] ]).
Qed.

Lemma check_existing_geopackage_eq expected_count (w : World Feature) :
  exists b w',
    check_existing_geopackage expected_count w = (Ok b, w') /\
    log_only w w' /\
    (b = true <->
     exists rows, geopackage w = Some (Table rows) /\
                  Z.of_nat (length rows) = expected_count).
Proof.
  unfold check_existing_geopackage. destruct (geopackage w) as [[|rows]|].
  - rewrite (bind_ok _ _ _ _ _ (logger_eq _ _ _)).
    eexists _, _. split; [reflexivity|].
    split; [apply log_only_logged; reflexivity|].
    split; [discriminate | intros (rows & H & _); discriminate].
  - cbv zeta. destruct (Z.eqb_spec (Z.of_nat (length rows)) expected_count) as [He|Hne].
    + rewrite (bind_ok _ _ _ _ _ (logger_eq _ _ _)).
      eexists _, _. split; [reflexivity|].
      split; [apply log_only_logged; reflexivity|].
      split; [intros _; exists rows; split; [reflexivity | exact He] | reflexivity].
    + rewrite (bind_ok _ _ _ _ _ (logger_eq _ _ _)).
      eexists _, _. split; [reflexivity|].
      split; [apply log_only_logged; reflexivity|].
      split; [discriminate|].
      intros (rows' & H & He). inversion H; subst. contradiction.
  - eexists _, _. split; [reflexivity|]. split; [apply log_only_refl|].
    split; [discriminate | intros (rows & H & _); discriminate].
Qed.

Lemma py_range_chunks count :
  py_range 0 count CHUNK_SIZE
  = Some (map (fun i : nat => 0 + Z.of_nat i * CHUNK_SIZE)
              (seq 0 (Z.to_nat (range_len 0 count CHUNK_SIZE)))).
Proof. reflexivity. Qed.

Lemma log_quiet_trans (w1 w2 w3 : World Feature) : log_quiet w1 w2 -> log_quiet w2 w3 -> log_quiet w1 w3.
Proof.
  intros (a1 & Hl1 & Hq1) (a2 & Hl2 & Hq2).
  exists (a1 ++ a2). rewrite Hl2, Hl1, app_assoc. split; [reflexivity|].
  apply Forall_app; split; assumption.
Qed.

Lemma log_quiet_logged lvl msg (w : World Feature) :
  from_handler (lvl, msg) = false -> log_quiet w (logged lvl msg w).
Proof. intros H. exists [(lvl, msg)]. split; [reflexivity|]. repeat constructor. exact H. Qed.

Lemma report_missing_eq l (w : World Feature) :
  exists w', report_missing l w = (Ok tt, w') /\ log_only w w'.
Proof.
  unfold report_missing. destruct (missing_chunks l) as [|m ms].
  - exists w. split; [reflexivity | apply log_only_refl].
  - rewrite (bind_ok _ _ _ _ _ (logger_eq _ _ _)).
    assert (H : forall xs (w0 : World Feature), exists w',
               for_each (fun (_ : unit) '(start, url) =>
                           logger Warning (MissingChunkLine start url)) xs tt w0
               = (Ok tt, w') /\ log_only w0 w').
    { induction xs as [|[start url] xs IH]; intros w0.
      - exists w0. split; [reflexivity | apply log_only_refl].
      - cbn [for_each]. rewrite (bind_ok _ _ _ _ _ (logger_eq _ _ _)).
        destruct (IH (logged Warning (MissingChunkLine start url) w0)) as (w' & E & Hl).
        exists w'. split; [exact E|].
        eapply log_only_trans; [|exact Hl]. apply log_only_logged. reflexivity. }
    destruct (H (m :: ms) (logged Warning MissingChunksHeader w)) as (w' & E & Hl).
    exists w'. split; [exact E|].
    eapply log_only_trans; [|exact Hl]. apply log_only_logged. reflexivity.
Qed.

(** [process_layer] returns on every answer of the environment, no handler
    of a raised exception runs, and each way out has its effect. *)
Lemma process_layer_spec w :
  exists outcome w',
    process_layer env w = (Ok outcome, w') /\
    log_quiet w w' /\
    layer_post env w outcome w'.
Proof.
  unfold process_layer.
  rewrite (bind_ok _ _ _ _ _ (logger_eq _ _ _)).
  destruct (get_feature_count_eq (logged Info StartingDownload w)) as (wc & Ec & Hc).
  rewrite (bind_ok _ _ _ _ _ Ec).
  rewrite (bind_ok _ _ _ _ _ (logger_eq _ _ _)).
  assert (H0 : log_only w (logged Info (FeaturesToDownload (reported_count env)) wc)).
  { eapply log_only_trans; [|apply log_only_logged; reflexivity].
    eapply log_only_trans; [|exact Hc]. apply log_only_logged. reflexivity. }
  set (w0 := logged Info (FeaturesToDownload (reported_count env)) wc) in *.
  destruct (Z.eqb_spec (reported_count env) 0) as [Hz|Hnz].
  { rewrite (bind_ok _ _ _ _ _ (logger_eq _ _ _)).
    eexists _, _. split; [reflexivity|].
    assert (H1 : log_only w (logged Warning NoFeaturesForLayer w0))
      by (eapply log_only_trans; [exact H0 | apply log_only_logged; reflexivity]).
    split; [apply H1 | split; [exact Hz | exact H1]]. }
  cbn [FORCE_OVERWRITE negb].
  destruct (check_existing_geopackage_eq (reported_count env) w0) as (b & we & Ee & He & Hb).
  rewrite (bind_ok _ _ _ _ _ Ee).
  assert (H1 : log_only w we) by (eapply log_only_trans; eassumption).
  assert (Hg0 : geopackage w0 = geopackage w) by apply H0.
  rewrite Hg0 in Hb. fold (complete env w) in Hb.
  destruct b.
  { eexists _, _. split; [reflexivity|].
    split; [apply H1|]. split; [exact Hnz|]. split; [|exact H1].
    apply Hb. reflexivity. }
  assert (Hinc : ~ complete env w) by (intros Hcpl; apply Hb in Hcpl; discriminate).
  rewrite py_range_chunks.
  destruct (download_loop_spec (reported_count env)
              (Z.to_nat (range_len 0 (reported_count env) CHUNK_SIZE)) 0
              {| tmp_files := []; total_fetched := 0; missing_chunks := [] |} we)
    as (l & wd & items & Ed & Hd & Htmp & Hblocks & Hlook & _).
  rewrite (bind_ok _ _ _ _ _ Ed).
  cbn [tmp_files app] in Htmp. rewrite Htmp.
  destruct (merge_loop_spec items 0 [] wd Hblocks Hlook) as (wm & Em & Hm).
  rewrite (bind_ok _ _ _ _ _ Em). cbn [app].
  assert (H2 : calm_step w wm).
  { eapply calm_trans; [apply log_only_calm, H1|].
    eapply calm_trans; eassumption. }
  destruct (List.filter (readable env) items) as [|it kept] eqn:Ef.
  - cbn [map]. rewrite (bind_ok _ _ _ _ _ (logger_eq _ _ _)).
    eexists _, _. split; [reflexivity|]. split.
    + eapply log_quiet_trans; [apply H2 | apply log_quiet_logged; reflexivity].
    + split; [exact Hnz|]. split; [exact Hinc|].
      split; [cbn [geopackage logged]; apply H2|].
      exists items. repeat split; assumption.
  - cbn [map]. cbv zeta.
    unfold to_file at 1.
    match goal with
    | |- context [bind ?m ?k wm] =>
        change (bind m k wm) with (k tt (set_geopackage
                  (Some (Table (concat (snd it :: map snd kept)))) wm))
    end.
    cbv beta.
    rewrite (bind_ok _ _ _ _ _ (logger_eq _ _ _)).
    rewrite (bind_ok _ _ _ _ _ (logger_eq _ _ _)).
    match goal with
    | |- context [bind (report_missing l) _ ?w3] =>
        destruct (report_missing_eq l w3) as (wr & Er & Hr);
        rewrite (bind_ok _ _ _ _ _ Er)
    end.
    eexists _, _. split; [reflexivity|]. split.
    + eapply log_quiet_trans; [apply H2|].
      eapply log_quiet_trans; [|apply Hr].
      eapply log_quiet_trans; [|apply log_quiet_logged; reflexivity].
      eapply log_quiet_trans; [|apply log_quiet_logged; reflexivity].
      exists []. simpl. rewrite app_nil_r. split; [reflexivity | constructor].
    + split; [exact Hnz|]. split; [exact Hinc|]. split.
      * destruct Hr as (_ & _ & Hg & _). rewrite Hg. reflexivity.
      * exists items. rewrite Ef. repeat split; try assumption. discriminate.
Qed.

Lemma Ascending_lower lo hi (ps : list (Page Feature)) :
  Ascending lo hi ps -> Forall (fun p => lo <= p_start p /\ 0 < p_count p) ps.
Proof.
  induction 1 as [lo hi Hle|lo hi p ps Hlo Hc Hps IH]; constructor.
  - split; assumption.
  - eapply Forall_impl; [exact IH|]. simpl. intros q [Hq1 Hq2]. split; lia.
Qed.

(** The frames the merge keeps are the records of delivered pages, in
    ascending window order over the whole layer. *)
Lemma Blocks_pages lo items :
  Blocks env lo items ->
  exists pages hi,
    concat (map snd (List.filter (readable env) items)) = records pages /\
    Ascending lo hi pages /\ Forall (served env) pages.
Proof.
  induction 1 as [lo|lo p c pages items Hlo Hne Hc Ha Hs Hb IH].
  - exists [], lo. split; [reflexivity|]. split; constructor. lia.
  - destruct IH as (pages' & hi & Hrec & Ha' & Hs').
    cbn [List.filter]. destruct (readable env (p, c)).
    + exists (pages ++ pages'), hi. split; [|split].
      * cbn [map snd concat]. rewrite Hrec, Hc. symmetry. apply records_app.
      * eapply Ascending_weaken; [exact Hlo|]. eapply Ascending_app; eassumption.
      * apply Forall_app; split; assumption.
    + exists pages', hi. split; [exact Hrec|]. split; [|exact Hs'].
      eapply Ascending_weaken; [|exact Ha']. unfold CHUNK_SIZE. lia.
Qed.

Section Ordering.
Variable key : Feature -> Z.

(** The server returns each page sorted by the sort key. *)
Hypothesis pages_sorted :
  forall n s c fs,
    page_response env n s c = Body (FeatureCollection fs) -> Sorted (key_le key) fs.

(** Pages at higher offsets hold higher-keyed records. *)
Hypothesis offsets_ordered :
  forall n1 s1 c1 fs1 n2 s2 c2 fs2,
    page_response env n1 s1 c1 = Body (FeatureCollection fs1) ->
    page_response env n2 s2 c2 = Body (FeatureCollection fs2) ->
    0 <= s1 -> 0 < c1 -> 0 < c2 -> s1 + c1 <= s2 ->
    forall x y, In x fs1 -> In y fs2 -> key x <= key y.

Lemma key_le_trans : Transitive (key_le key).
Proof. unfold key_le. intros x y z. lia. Qed.

Lemma Ascending_sorted lo hi (ps : list (Page Feature)) :
  0 <= lo -> Ascending lo hi ps -> Forall (served env) ps ->
  StronglySorted (key_le key) (records ps).
Proof.
  intros Hlo Ha. induction Ha as [lo hi Hle|lo hi p ps Hp Hc Hps IH]; intros Hs.
  - constructor.
  - inversion Hs as [|p0 ps0 [n Hn] Hrest]; subst.
    unfold records. cbn [map concat]. apply StronglySorted_app_2.
    + intros x y Hx Hy. apply list_elem_of_In in Hx. apply list_elem_of_In in Hy.
      apply in_concat in Hy. destruct Hy as (fs & Hfs & Hy).
      apply in_map_iff in Hfs. destruct Hfs as (q & <- & Hq).
      pose proof (Ascending_lower _ _ _ Hps) as Hlow.
      rewrite Forall_forall in Hlow, Hrest.
      apply list_elem_of_In in Hq.
      destruct (Hlow q Hq) as [Hq1 Hq2]. destruct (Hrest q Hq) as [m Hm].
      eapply (offsets_ordered n (p_start p) (p_count p) _ m (p_start q) (p_count q));
        try eassumption; lia.
    + apply Sorted_StronglySorted; [apply key_le_trans|].
      eapply pages_sorted. exact Hn.
    + apply IH; [lia | exact Hrest].
Qed.

(** C5. Assume the server returns each page sorted ascending by the sort
    key, and pages at higher offsets hold higher-keyed records.  Then the
    list the fetcher returns for a window is the concatenation, in
    ascending window order and without reordering, of the pages delivered
    for sub-windows of that window, and it is in ascending key order; and
    the collection a run of [process_layer] saves is the concatenation of
    delivered pages in ascending window order over the whole layer, and is
    in ascending key order. *)
Theorem assembled_in_key_order :
  (forall start_index count min_chunk w fs w',
      0 <= start_index -> 1 <= count -> 1 <= min_chunk ->
      fetch_features_with_retry env start_index count min_chunk w = (Ok fs, w') ->
      (exists pages,
          fs = records pages /\
          Ascending start_index (start_index + count) pages /\
          Forall (served env) pages) /\
      StronglySorted (key_le key) fs) /\
  (forall w l combined w',
      process_layer env w = (Ok (Saved l combined), w') ->
      geopackage w' = Some (Table combined) /\
      (exists pages hi,
          combined = records pages /\
          Ascending 0 hi pages /\
          Forall (served env) pages) /\
      StronglySorted (key_le key) combined).
Proof.
  split.
  - intros start_index count min_chunk w fs w' Hs Hc Hm E.
    destruct (fetch_total env start_index count min_chunk w Hm) as (fs0 & w0 & E0 & _ & Hp).
    rewrite E in E0. inversion E0; subst fs0 w0.
    destruct (Hp Hc) as (pages & -> & Ha & Hsv).
    split; [exists pages; repeat split; assumption|].
    eapply Ascending_sorted; eassumption.
  - intros w l combined w' E.
    destruct (process_layer_spec w) as (o & w0 & E0 & _ & Hpost).
    rewrite E in E0. inversion E0; subst o w0.
    destruct Hpost as (_ & _ & Hg & items & Hb & _ & _ & ->).
    destruct (Blocks_pages 0 items Hb) as (pages & hi & Hrec & Ha & Hsv).
    split; [exact Hg|]. rewrite Hrec.
    split; [exists pages, hi; repeat split; assumption|].
    eapply Ascending_sorted; [|eassumption|eassumption]. lia.
Qed.

End Ordering.
End Layer.

(** * Main theorems *)

Section Claims.
Context {Feature : Type}.
Variable env : Env Feature.

(** C4, as amended.  For a window of at least one feature and a floor of at
    least one, the recursion of the fetcher ends whatever the server
    answers, also when every request times out: [k + 1] nested calls are
    enough as soon as [count <= min_chunk * 10 ^ k], which holds for [k]
    the binary logarithm of [count / min_chunk] rounded up, and the fuel
    of [fetch_features_with_retry] is enough.  At a shrink step the
    requested piece size [small_count] is at least [min_chunk] and less
    than the size of the parent; every sub-window has between one and
    [small_count] features, and all but the last have exactly
    [small_count].  (The last, truncated, sub-window may have fewer than
    [min_chunk] features.) *)
Theorem shrink_terminates start_index count min_chunk :
  1 <= count -> 1 <= min_chunk ->
  (forall (k : nat) (w : World Feature),
      count <= min_chunk * 10 ^ Z.of_nat k ->
      exists fs w',
        fetch_features_with_retry_fuel env (S k) start_index count min_chunk w
        = (Ok fs, w')) /\
  count <= min_chunk * 10 ^ Z.log2_up ((count + min_chunk - 1) / min_chunk) /\
  (forall w : World Feature,
      exists fs w',
        fetch_features_with_retry env start_index count min_chunk w = (Ok fs, w')) /\
  (forall fuel (w : World Feature),
      min_chunk < count ->
      page_response env (length (requests w)) start_index count = Timeout ->
      let small_count := Z.max (count / 10) min_chunk in
      let sub_starts :=
        map (fun i : nat => start_index + Z.of_nat i * small_count)
            (seq 0 (pieces count small_count)) in
      let windows := sub_windows start_index count small_count sub_starts in
      fetch_features_with_retry_fuel env (S fuel) start_index count min_chunk w
      = retry_loop (fetch_features_with_retry_fuel env fuel)
          start_index count small_count min_chunk sub_starts []
          (logged Warning (RetrySmaller start_index count small_count)
             (logged Warning (TimeoutFetching start_index count)
                (sent start_index count w))) /\
      min_chunk <= small_count < count /\
      Forall (fun win => 1 <= snd win <= small_count) windows /\
      Forall (fun win => snd win = small_count) (removelast windows)).
Proof.
  intros Hc Hm. split; [|split; [|split]].
  - intros k w Hk.
    destruct (fetch_fuel_total env min_chunk Hm k start_index count w Hk)
      as (fs & w' & E & _).
    exists fs, w'. exact E.
  - set (q := (count + min_chunk - 1) / min_chunk).
    assert (Hq1 : 1 <= q) by (apply Z.div_le_lower_bound; lia).
    assert (Hq2 : count <= min_chunk * q).
    { pose proof (Z.mul_succ_div_gt (count + min_chunk - 1) min_chunk ltac:(lia)).
      fold q in H. lia. }
    pose proof (Z.log2_up_nonneg q) as Hn.
    assert (H2 : 2 ^ Z.log2_up q <= 10 ^ Z.log2_up q)
      by (apply Z.pow_le_mono_l; lia).
    assert (Hq3 : q <= 2 ^ Z.log2_up q).
    { destruct (Z_lt_le_dec 1 q) as [H1|H1].
      - apply Z.log2_up_spec. exact H1.
      - pose proof (Z.pow_pos_nonneg 2 (Z.log2_up q) ltac:(lia) Hn). lia. }
    nia.
  - intros w. destruct (fetch_total env start_index count min_chunk w Hm)
      as (fs & w' & E & _).
    exists fs, w'. exact E.
  - intros fuel w Hgt Ht.
    destruct (shrink_step env fuel start_index count min_chunk w Hm Hgt Ht)
      as (E & _ & _ & Hlast & Hall).
    cbv zeta. split; [exact E|]. split; [|split; assumption].
    split; [lia|]. apply Z.max_lub_lt; [|lia].
    apply Z.div_lt_upper_bound; lia.
Qed.

(** C7. When the count request fails, or its answer has no [numberMatched]
    attribute, [get_feature_count] returns 0; and whenever
    [get_feature_count] returns 0, [process_layer] sends no page request,
    writes neither a scratch file nor the GeoPackage, and returns normally
    after the warning that the layer has no features. *)
Theorem zero_count_skips_layer :
  (hits_response env = HitsFailed \/ hits_response env = HitsXml AttrAbsent ->
   forall w : World Feature, fst (get_feature_count env w) = Ok 0) /\
  (forall w0 w : World Feature,
      fst (get_feature_count env w0) = Ok 0 ->
      exists w' entries,
        process_layer env w = (Ok NothingToFetch, w') /\
        requests w' = requests w /\
        temp_chunks w' = temp_chunks w /\
        geopackage w' = geopackage w /\
        log w' = log w ++ entries ++ [(Warning, NoFeaturesForLayer)]).
Proof.
  split.
  - intros H w. destruct (get_feature_count_eq env w) as (w' & E & _).
    rewrite E. cbn [fst]. unfold reported_count.
    destruct H as [-> | ->]; reflexivity.
  - intros w0 w H0.
    destruct (get_feature_count_eq env w0) as (w0' & E0 & _).
    rewrite E0 in H0. cbn [fst] in H0. inversion H0 as [Hz].
    destruct (get_feature_count_eq env (logged Info StartingDownload w))
      as (wc & Ec & Hc).
    assert (Hl : log_only w (logged Info (FeaturesToDownload (reported_count env)) wc)).
    { eapply log_only_trans; [|apply log_only_logged; reflexivity].
      eapply log_only_trans; [|exact Hc]. apply log_only_logged. reflexivity. }
    destruct Hl as (Hr & Ht & Hg & added & Hadd & _).
    exists (logged Warning NoFeaturesForLayer
              (logged Info (FeaturesToDownload (reported_count env)) wc)), added.
    split; [|split; [exact Hr | split; [exact Ht | split; [exact Hg|]]]].
    + unfold process_layer.
      rewrite (bind_ok _ _ _ _ _ (logger_eq _ _ _)).
      rewrite (bind_ok _ _ _ _ _ Ec).
      rewrite (bind_ok _ _ _ _ _ (logger_eq _ _ _)).
      rewrite Hz. cbn [Z.eqb].
      rewrite (bind_ok _ _ _ _ _ (logger_eq _ _ _)). reflexivity.
    + cbn [log logged] in *. rewrite Hadd, app_assoc. reflexivity.
Qed.

(** C8. [FORCE_OVERWRITE] is off.  When the GeoPackage of the layer is on
    disk and holds exactly as many rows as the server reports, a run of
    [process_layer] sends no page request and writes nothing.
    [check_existing_geopackage] never raises; it returns [True] exactly
    when the file is there, can be read and holds [expected_count] rows,
    and so [False] when the file cannot be read. *)
Theorem complete_output_is_skipped :
  FORCE_OVERWRITE = false /\
  (forall (w : World Feature) rows,
      geopackage w = Some (Table rows) ->
      Z.of_nat (length rows) = reported_count env ->
      exists outcome w',
        process_layer env w = (Ok outcome, w') /\
        (outcome = NothingToFetch \/ outcome = AlreadyComplete) /\
        requests w' = requests w /\
        temp_chunks w' = temp_chunks w /\
        geopackage w' = geopackage w) /\
  (forall expected_count (w : World Feature),
      exists b w',
        check_existing_geopackage expected_count w = (Ok b, w') /\
        log_only w w' /\
        (b = true <->
         exists rows, geopackage w = Some (Table rows) /\
                      Z.of_nat (length rows) = expected_count) /\
        (geopackage w = Some Unreadable -> b = false)).
Proof.
  split; [reflexivity|]. split.
  - intros w rows Hg Hlen.
    destruct (process_layer_spec env w) as (outcome & w' & E & _ & Hpost).
    exists outcome, w'. split; [exact E|].
    assert (Hcomplete : complete env w) by (exists rows; split; assumption).
    destruct outcome as [| |l|l combined]; simpl in Hpost.
    + destruct Hpost as (_ & Hr & Ht & Hg' & _). auto.
    + destruct Hpost as (_ & _ & Hr & Ht & Hg' & _). auto.
    + destruct Hpost as (_ & Hn & _). contradiction.
    + destruct Hpost as (_ & Hn & _). contradiction.
  - intros expected_count w.
    destruct (check_existing_geopackage_eq expected_count w)
      as (b & w' & E & Hl & Hb).
    exists b, w'. split; [exact E|]. split; [exact Hl|]. split; [exact Hb|].
    intros Hu. destruct b; [|reflexivity].
    destruct (proj1 Hb eq_refl) as (rows & Hrows & _). congruence.
Qed.

(** C9, as amended.  With a floor of at least one, which is the floor
    [process_layer] uses, the fetcher returns a list of records for every
    window, in every world and whatever the server answers; it raises
    nothing, and its own handlers (lines 89 and 112) log nothing.  Hence a
    run of
    [process_layer] returns normally and the handler of line 151, which
    records a missing chunk for a raised error, never runs: the log gains
    no entry written by a handler. *)
Theorem fetcher_never_raises :
  (forall start_index count min_chunk (w : World Feature),
      1 <= min_chunk ->
      exists fs w',
        fetch_features_with_retry env start_index count min_chunk w = (Ok fs, w') /\
        log_quiet w w') /\
  (forall w : World Feature,
      exists outcome w',
        process_layer env w = (Ok outcome, w') /\ log_quiet w w').
Proof.
  split.
  - intros start_index count min_chunk w Hm.
    destruct (fetch_total env start_index count min_chunk w Hm)
      as (fs & w' & E & (_ & _ & Hl & _) & _).
    exists fs, w'. split; assumption.
  - intros w. destruct (process_layer_spec env w) as (outcome & w' & E & Hl & _).
    exists outcome, w'. split; assumption.
Qed.

(** C10. A run of [process_layer] that does not reach the final write
    leaves the GeoPackage of the layer as it was.  In particular, when
    every window is empty, failed, or has a scratch file geopandas cannot
    read (whatever non-empty content the server can deliver for a window
    is unreadable), the run returns normally without writing, and a
    GeoPackage from an earlier run is unchanged. *)
Theorem no_records_no_write :
  (forall (w : World Feature) outcome w',
      process_layer env w = (Ok outcome, w') ->
      (forall l combined, outcome <> Saved l combined) ->
      geopackage w' = geopackage w) /\
  ((forall p pages,
       Ascending p (p + CHUNK_SIZE) pages -> Forall (served env) pages ->
       records pages <> [] ->
       geojson_readable env p (records pages) = false) ->
   forall w : World Feature,
     exists outcome w',
       process_layer env w = (Ok outcome, w') /\
       (forall l combined, outcome <> Saved l combined) /\
       geopackage w' = geopackage w).
Proof.
  assert (Hframe : forall (w : World Feature) outcome w',
             layer_post env w outcome w' ->
             (forall l combined, outcome <> Saved l combined) ->
             geopackage w' = geopackage w).
  { intros w outcome w' Hpost Hns.
    destruct outcome as [| |l|l combined]; simpl in Hpost.
    - destruct Hpost as (_ & _ & _ & Hg & _). exact Hg.
    - destruct Hpost as (_ & _ & _ & _ & Hg & _). exact Hg.
    - destruct Hpost as (_ & _ & Hg & _). exact Hg.
    - exfalso. eapply Hns. reflexivity. }
  split.
  - intros w outcome w' E Hns.
    destruct (process_layer_spec env w) as (o & w0 & E0 & _ & Hpost).
    rewrite E in E0. inversion E0; subst o w0.
    eapply Hframe; eassumption.
  - intros Hunreadable w.
    destruct (process_layer_spec env w) as (outcome & w' & E & _ & Hpost).
    exists outcome, w'. split; [exact E|].
    assert (Hns : forall l combined, outcome <> Saved l combined).
    { intros l combined ->. simpl in Hpost.
      destruct Hpost as (_ & _ & _ & items & Hb & _ & Hkept & _).
      apply Hkept. clear Hkept.
      induction Hb as [lo|lo p c pages items Hlo Hne Hc Ha Hs Hb IH];
        [reflexivity|].
      cbn [List.filter]. unfold readable at 1. cbn [fst snd].
      rewrite Hc, (Hunreadable p pages Ha Hs) by (rewrite <- Hc; exact Hne).
      exact IH. }
    split; [exact Hns|]. eapply Hframe; eassumption.
Qed.

End Claims.

(** * Concrete runs *)

Lemma run_of (env : Env Z) (w : World Z) (outcome : LayerOutcome) :
  fst (process_layer env w) = Ok outcome ->
  process_layer env w = (Ok outcome, snd (process_layer env w)).
Proof. intros H. apply injective_projections; [exact H | reflexivity]. Qed.

(** C1, evaluated where the code departs from it.  The layer has 2000
    features; the request for [0, 2000) times out, the retry for [0, 200)
    delivers one record, and every other request times out down to windows
    of one feature.  The run saves the single record and its missing list
    is empty: offset 100 is covered by the delivered page, but the offsets
    200 and 1999 lie neither in the window of a delivered page nor in a
    range of the missing list. *)
Theorem partial_shrink_loses_offsets :
  exists l w',
    process_layer spotty_server empty_world = (Ok (Saved l [7]), w') /\
    reported_count spotty_server = 2000 /\
    missing_chunks l = [] /\
    total_fetched l = 1 /\
    accounted spotty_server w' l 100 = true /\
    accounted spotty_server w' l 200 = false /\
    accounted spotty_server w' l 1999 = false.
Proof.
  exists {| tmp_files := [0]; total_fetched := 1; missing_chunks := [] |},
         (snd (process_layer spotty_server empty_world)).
  split; [apply run_of; vm_compute; reflexivity|].
  repeat split; vm_compute; reflexivity.
Qed.


(** The depth bound is reached: when every request times out, the window
    of 2000 features needs five nested calls (2000, 200, 20, 2, 1). *)
Example full_window_depth :
  fst (fetch_features_with_retry_fuel always_timeout 4 0 2000 1 empty_world)
  = OutOfFuel /\
  fst (fetch_features_with_retry_fuel always_timeout 5 0 2000 1 empty_world)
  = Ok [].
Proof. split; vm_compute; reflexivity. Qed.

(** One shrink retry: the window [0, 2000) times out once and its ten
    pieces are answered, so eleven requests are sent, in ascending order. *)
Example one_shrink_retry_requests :
  requests (snd (process_layer slow_server empty_world))
  = (0, 2000) :: sub_windows 0 2000 200
                   [0; 200; 400; 600; 800; 1000; 1200; 1400; 1600; 1800].
Proof. vm_compute. reflexivity. Qed.

(** C4 as stated fails.  With a floor of three, the window of four features
    at offset 0 times out on every request: its pieces are [(0, 3)] and
    [(3, 1)], and the second has fewer features than the floor. *)
Lemma last_piece_below_floor :
  exists w',
    fetch_features_with_retry always_timeout 0 4 3 empty_world = (Ok [], w') /\
    sub_requests empty_world w' = [(0, 3); (3, 1)] /\
    ~ Forall (fun req => 3 <= snd req) (sub_requests empty_world w').
Proof.
  exists (snd (fetch_features_with_retry always_timeout 0 4 3 empty_world)).
  split; [apply injective_projections; vm_compute; reflexivity|].
  split; [vm_compute; reflexivity|].
  intros H. vm_compute in H.
  inversion H as [|x xs _ H2]; subst. inversion H2 as [|y ys H3 _]; subst.
  apply H3. reflexivity.
Qed.

Lemma shrink_terminates_witness :
  1 <= 2000 /\ 1 <= 1 /\
  exists fs w',
    fetch_features_with_retry_fuel always_timeout 5 0 2000 1 empty_world
    = (Ok fs, w').
Proof.
  split; [lia|]. split; [lia|].
  apply (proj1 (shrink_terminates always_timeout 0 2000 1 ltac:(lia) ltac:(lia))
           4%nat empty_world).
  simpl. lia.
Defined.

Lemma only_timeout_shrinks_witness :
  page_response slow_server (length (requests empty_world)) 0 200
  = Body (FeatureCollection [0]) /\
  fetch_features_with_retry slow_server 0 200 1 empty_world
  = (Ok [0], sent 0 200 empty_world).
Proof.
  split; [reflexivity|].
  apply (proj1 (only_timeout_shrinks slow_server 0 200 1 empty_world)).
  reflexivity.
Defined.

Lemma slow_server_pages_sorted :
  forall n s c fs,
    page_response slow_server n s c = Body (FeatureCollection fs) ->
    Sorted (key_le (fun x : Z => x)) fs.
Proof.
  intros n s c fs. simpl. destruct (c =? 2000); [discriminate|].
  intros H. inversion H. repeat constructor.
Qed.

Lemma slow_server_offsets_ordered :
  forall n1 s1 c1 fs1 n2 s2 c2 fs2,
    page_response slow_server n1 s1 c1 = Body (FeatureCollection fs1) ->
    page_response slow_server n2 s2 c2 = Body (FeatureCollection fs2) ->
    0 <= s1 -> 0 < c1 -> 0 < c2 -> s1 + c1 <= s2 ->
    forall x y, In x fs1 -> In y fs2 -> x <= y.
Proof.
  intros n1 s1 c1 fs1 n2 s2 c2 fs2. simpl.
  destruct (c1 =? 2000); [discriminate|]. destruct (c2 =? 2000); [discriminate|].
  intros H1 H2 Hs1 Hc1 Hc2 Hle x y Hx Hy.
  inversion H1; subst fs1. inversion H2; subst fs2.
  destruct Hx as [<-|[]]. destruct Hy as [<-|[]]. lia.
Qed.

Lemma assembled_in_key_order_witness :
  exists l w',
    process_layer slow_server empty_world
    = (Ok (Saved l [0; 200; 400; 600; 800; 1000; 1200; 1400; 1600; 1800]), w') /\
    StronglySorted (key_le (fun x : Z => x))
      [0; 200; 400; 600; 800; 1000; 1200; 1400; 1600; 1800].
Proof.
  assert (F : fst (process_layer slow_server empty_world)
              = Ok (Saved {| tmp_files := [0]; total_fetched := 10;
                             missing_chunks := [] |}
                      [0; 200; 400; 600; 800; 1000; 1200; 1400; 1600; 1800]))
    by (vm_compute; reflexivity).
  pose proof (run_of _ _ _ F) as E.
  exists {| tmp_files := [0]; total_fetched := 10; missing_chunks := [] |},
         (snd (process_layer slow_server empty_world)).
  split; [exact E|].
  destruct (proj2 (assembled_in_key_order slow_server (fun x : Z => x)
                     slow_server_pages_sorted slow_server_offsets_ordered)
              empty_world _ _ _ E) as (_ & _ & Hs).
  exact Hs.
Defined.

Lemma zero_count_skips_layer_witness :
  (hits_response no_count_server = HitsFailed \/
   hits_response no_count_server = HitsXml AttrAbsent) /\
  fst (get_feature_count no_count_server empty_world) = Ok 0 /\
  exists w' entries,
    process_layer no_count_server empty_world = (Ok NothingToFetch, w') /\
    requests w' = requests empty_world /\
    temp_chunks w' = temp_chunks empty_world /\
    geopackage w' = geopackage empty_world /\
    log w' = log empty_world ++ entries ++ [(Warning, NoFeaturesForLayer)].
Proof.
  assert (H : hits_response no_count_server = HitsFailed \/
              hits_response no_count_server = HitsXml AttrAbsent)
    by (left; reflexivity).
  pose proof (proj1 (zero_count_skips_layer no_count_server) H empty_world) as H0.
  split; [exact H|]. split; [exact H0|].
  exact (proj2 (zero_count_skips_layer no_count_server) empty_world empty_world H0).
Defined.

Lemma complete_output_is_skipped_witness :
  geopackage downloaded_world = Some (Table [10; 11]) /\
  Z.of_nat (length [10; 11]) = reported_count small_server /\
  exists outcome w',
    process_layer small_server downloaded_world = (Ok outcome, w') /\
    (outcome = NothingToFetch \/ outcome = AlreadyComplete) /\
    requests w' = requests downloaded_world /\
    temp_chunks w' = temp_chunks downloaded_world /\
    geopackage w' = geopackage downloaded_world.
Proof.
  split; [reflexivity|]. split; [reflexivity|].
  apply (proj1 (proj2 (complete_output_is_skipped small_server))
           downloaded_world [10; 11]); reflexivity.
Defined.

Lemma fetcher_never_raises_witness :
  1 <= 1 /\
  exists fs w',
    fetch_features_with_retry always_timeout 0 2000 1 empty_world = (Ok fs, w') /\
    log_quiet empty_world w'.
Proof.
  split; [lia|].
  apply (proj1 (fetcher_never_raises always_timeout) 0 2000 1 empty_world). lia.
Defined.

Lemma no_records_no_write_witness :
  (forall p pages,
      Ascending p (p + CHUNK_SIZE) pages ->
      Forall (served unreadable_server) pages ->
      records pages <> [] ->
      geojson_readable unreadable_server p (records pages) = false) /\
  exists outcome w',
    process_layer unreadable_server downloaded_world = (Ok outcome, w') /\
    (forall l combined, outcome <> Saved l combined) /\
    geopackage w' = geopackage downloaded_world.
Proof.
  assert (H : forall p pages,
             Ascending p (p + CHUNK_SIZE) pages ->
             Forall (served unreadable_server) pages ->
             records pages <> [] ->
             geojson_readable unreadable_server p (records pages) = false)
    by (intros; reflexivity).
  split; [exact H|].
  exact (proj2 (no_records_no_write unreadable_server) H downloaded_world).
Defined.
(** * Further properties of the fetcher *)

Section FetcherMore.
Context {Feature : Type}.
Variable env : Env Feature.

(** After its own request the fetcher only takes quiet steps. *)
Lemma fetch_fuel_after_request min_chunk :
  1 <= min_chunk ->
  forall (k : nat) start_index count (w : World Feature),
    count <= min_chunk * 10 ^ Z.of_nat k ->
    exists fs w',
      fetch_features_with_retry_fuel env (S k) start_index count min_chunk w
      = (Ok fs, w') /\
      quiet_step (sent start_index count w) w'.
Proof.
  intros Hm k start_index count w Hk.
  rewrite fetch_fuel_eq.
  destruct (page_response env (length (requests w)) start_index count)
    as [| |data] eqn:Ha.
  - cbv zeta. destruct (Z.leb_spec count min_chunk) as [Hle|Hgt].
    + eexists _, _. split; [reflexivity|].
      eapply quiet_trans; [|apply quiet_logged; reflexivity].
      apply quiet_logged. reflexivity.
    + destruct k as [|k]; [simpl in Hk; lia|].
      set (small_count := Z.max (Z.quot count 10) min_chunk).
      assert (Hq : Z.quot count 10 = count / 10) by (apply Z.quot_div_nonneg; lia).
      assert (Hs : 0 < small_count) by (unfold small_count; lia).
      assert (Hcount : 0 < count) by lia.
      pose proof (pow10_pos k) as Hp.
      assert (Hsmall : small_count <= min_chunk * 10 ^ Z.of_nat k).
      { unfold small_count. rewrite Hq. apply Z.max_lub; [|nia].
        apply Z.div_le_upper_bound; [lia|].
        rewrite Nat2Z.inj_succ, Z.pow_succ_r in Hk by lia. lia. }
      destruct (shrink_step env k start_index count min_chunk w Hm Hgt Ha)
        as (_ & Htil & _ & _ & Hsize).
      rewrite <- Hq in Htil, Hsize. fold small_count in Htil, Hsize.
      rewrite (py_range_pos start_index count small_count Hs Hcount).
      edestruct (retry_loop_spec env (fetch_features_with_retry_fuel env (S k))
                   start_index count small_count min_chunk)
        as (fs & w' & E & Hq' & _).
      * exact Htil.
      * intros s c w1 Hin. apply fetch_fuel_total; [exact Hm|].
        rewrite Forall_forall in Hsize. apply list_elem_of_In, Hsize in Hin.
        simpl in Hin. lia.
      * rewrite E. exists fs, w'. split; [reflexivity|].
        eapply quiet_trans; [|exact Hq'].
        eapply quiet_trans; [|apply quiet_logged; reflexivity].
        apply quiet_logged. reflexivity.
  - eexists _, _. split; [reflexivity|]. apply quiet_logged. reflexivity.
  - eexists _, _. split; [reflexivity|]. apply quiet_refl.
Qed.

Lemma fetch_after_request start_index count min_chunk (w : World Feature) :
  1 <= min_chunk ->
  exists fs w',
    fetch_features_with_retry env start_index count min_chunk w = (Ok fs, w') /\
    quiet_step (sent start_index count w) w'.
Proof.
  intros Hm. unfold fetch_features_with_retry, retry_fuel.
  apply fetch_fuel_after_request; [assumption | apply retry_fuel_covers; assumption].
Qed.

(** X1. With a floor of at least one, a call of the fetcher leaves the
    scratch directory and the GeoPackage untouched; it only adds requests,
    the first of which asks for the window itself, and log entries. *)
Theorem fetcher_only_appends start_index count min_chunk
    (w : World Feature) fs w' :
  1 <= min_chunk ->
  fetch_features_with_retry env start_index count min_chunk w = (Ok fs, w') ->
  temp_chunks w' = temp_chunks w /\
  geopackage w' = geopackage w /\
  (exists more, requests w' = requests w ++ (start_index, count) :: more) /\
  (exists added, log w' = log w ++ added).
Proof.
  intros Hm E.
  destruct (fetch_after_request start_index count min_chunk w Hm)
    as (fs0 & w0 & E0 & Ht & Hg & (added & Hl & _) & (more & Hr)).
  rewrite E in E0. inversion E0; subst fs0 w0.
  split; [exact Ht|]. split; [exact Hg|]. split.
  - exists more. rewrite Hr. simpl. rewrite <- app_assoc. reflexivity.
  - exists added. exact Hl.
Qed.

(** A request that does not time out ends the call. *)
Lemma fetch_fuel_answered fuel start_index count min_chunk (w : World Feature) :
  page_response env (length (requests w)) start_index count <> Timeout ->
  exists w',
    fetch_features_with_retry_fuel env (S fuel) start_index count min_chunk w
    = (Ok (answer_features
             (page_response env (length (requests w)) start_index count)), w') /\
    requests w' = requests w ++ [(start_index, count)] /\
    temp_chunks w' = temp_chunks w /\
    geopackage w' = geopackage w.
Proof.
  intros Hn. rewrite fetch_fuel_eq.
  destruct (page_response env (length (requests w)) start_index count)
    as [| |[features|]]; [contradiction| | |];
    eexists; (split; [reflexivity|]); repeat split.
Qed.

(** The loop over the sub-windows when none of its requests times out. *)
Lemma retry_loop_answered fuel start_index count small_count min_chunk base :
  (forall n s c, (base < n)%nat -> page_response env n s c <> Timeout) ->
  forall sub_starts acc (w : World Feature),
    (base < length (requests w))%nat ->
    exists w',
      retry_loop (fetch_features_with_retry_fuel env (S fuel))
        start_index count small_count min_chunk sub_starts acc w
      = (Ok (acc ++
             concat (imap (fun i win =>
                             answer_features
                               (page_response env (length (requests w) + i)
                                  (fst win) (snd win)))
                          (sub_windows start_index count small_count sub_starts))),
         w') /\
      requests w' = requests w
                    ++ sub_windows start_index count small_count sub_starts.
Proof.
  intros Hans. induction sub_starts as [|s rest IH]; intros acc w Hbase.
  - exists w. simpl. rewrite !app_nil_r. split; reflexivity.
  - destruct (fetch_fuel_answered fuel s
                (Z.min small_count (start_index + count - s)) min_chunk w
                (Hans _ _ _ Hbase)) as (w1 & E1 & Hr1 & _).
    destruct (IH (acc ++ answer_features
                    (page_response env (length (requests w)) s
                       (Z.min small_count (start_index + count - s)))) w1)
      as (w' & E & Hr).
    { rewrite Hr1, length_app. simpl. lia. }
    erewrite imap_ext in E;
      [|intros i win _; rewrite Hr1, length_app; simpl;
        replace (length (requests w) + 1 + i)%nat
          with (length (requests w) + S i)%nat by lia;
        reflexivity].
    exists w'. split.
    + cbn [retry_loop]. unfold bind at 1. unfold try_except, bind at 1.
      rewrite E1. unfold ret at 1. rewrite E.
      cbn [sub_windows map]. rewrite imap_cons. cbn [concat fst snd].
      rewrite Nat.add_0_r, <- app_assoc. reflexivity.
    + rewrite Hr, Hr1. cbn [sub_windows map]. rewrite <- app_assoc. reflexivity.
Qed.

(** X2. One shrink level.  When the request for a window of more than
    [min_chunk] features times out (the floor being at least one) and no
    later request does, the fetcher sends one request per sub-window, in
    ascending order and nothing more, and returns the records of their
    answers in that order. *)
Theorem one_shrink_level start_index count min_chunk (w : World Feature) :
  1 <= min_chunk -> min_chunk < count ->
  page_response env (length (requests w)) start_index count = Timeout ->
  (forall n s c, (length (requests w) < n)%nat ->
                 page_response env n s c <> Timeout) ->
  let small_count := Z.max (count / 10) min_chunk in
  let windows :=
    sub_windows start_index count small_count
      (map (fun i : nat => start_index + Z.of_nat i * small_count)
           (seq 0 (pieces count small_count))) in
  exists w',
    fetch_features_with_retry env start_index count min_chunk w
    = (Ok (concat (imap (fun i win =>
                           answer_features
                             (page_response env (length (requests w) + 1 + i)
                                (fst win) (snd win)))
                        windows)),
       w') /\
    requests w' = requests w ++ (start_index, count) :: windows /\
    length (requests w') = (length (requests w) + 1 + pieces count small_count)%nat.
Proof.
  intros Hm Hgt Ht Hans small_count windows.
  assert (Hfuel : exists fuel, retry_fuel count = S (S fuel)).
  { unfold retry_fuel. pose proof (Z.log2_up_pos count ltac:(lia)) as Hpos.
    exists (Nat.pred (Z.to_nat (Z.log2_up count))). f_equal. lia. }
  destruct Hfuel as (fuel & Hfuel).
  unfold fetch_features_with_retry. rewrite Hfuel.
  destruct (shrink_step env (S fuel) start_index count min_chunk w Hm Hgt Ht)
    as (E & _).
  cbv zeta in E. fold small_count in E. rewrite E.
  destruct (retry_loop_answered fuel start_index count small_count min_chunk
              (length (requests w)) Hans
              (map (fun i : nat => start_index + Z.of_nat i * small_count)
                   (seq 0 (pieces count small_count)))
              []
              (logged Warning (RetrySmaller start_index count small_count)
                 (logged Warning (TimeoutFetching start_index count)
                    (sent start_index count w))))
    as (w' & E' & Hr).
  { simpl. rewrite length_app. simpl. lia. }
  exists w'. fold windows in E', Hr. split; [|split].
  - erewrite imap_ext in E';
      [|intros i win _; simpl; rewrite length_app; simpl; reflexivity].
    rewrite E'. reflexivity.
  - rewrite Hr. simpl. rewrite <- app_assoc. reflexivity.
  - rewrite Hr. simpl. rewrite !length_app. simpl.
    unfold windows, sub_windows. rewrite !length_map, length_seq. lia.
Qed.

(** X3. At the floor.  When the request for a window of at most
    [min_chunk] features times out, the fetcher sends no other request and
    returns the empty list; it logs the timeout and the offset of the
    window it gives up, and changes nothing else. *)
Theorem floor_timeout_stops start_index count min_chunk (w : World Feature) :
  count <= min_chunk ->
  page_response env (length (requests w)) start_index count = Timeout ->
  fetch_features_with_retry env start_index count min_chunk w
  = (Ok [], logged Error (MinChunkReached start_index)
              (logged Warning (TimeoutFetching start_index count)
                 (sent start_index count w))).
Proof.
  intros Hc Ht. unfold fetch_features_with_retry, retry_fuel.
  apply fetch_fuel_floor; assumption.
Qed.

End FetcherMore.

(** * Further properties of the layer download *)

Section LayerMore.
Context {Feature : Type}.
Variable env : Env Feature.

Lemma chunk_starts_tiling (n : nat) a :
  Tiling a (a + Z.of_nat n * CHUNK_SIZE)
    (chunk_windows (map (fun i : nat => a + Z.of_nat i * CHUNK_SIZE) (seq 0 n))).
Proof.
  unfold chunk_windows. rewrite map_map.
  revert a. induction n as [|n IH]; intros a.
  - simpl. rewrite Z.add_0_r. constructor.
  - simpl seq. rewrite <- seq_shift. cbn [map]. rewrite map_map.
    replace (a + Z.of_nat 0 * CHUNK_SIZE) with a by (simpl; lia).
    constructor; [reflexivity|].
    specialize (IH (a + CHUNK_SIZE)).
    replace (a + CHUNK_SIZE + Z.of_nat n * CHUNK_SIZE)
      with (a + Z.of_nat (S n) * CHUNK_SIZE) in IH by lia.
    erewrite map_ext; [exact IH|]. intros i. simpl. f_equal. lia.
Qed.

(** One window of the download loop, with the requests it sends. *)
Lemma download_window_full count l start (w : World Feature) :
  exists fs w1,
    fetch_features_with_retry env start CHUNK_SIZE 1 w = (Ok fs, w1) /\
    fetch_post env start CHUNK_SIZE w fs w1 /\
    quiet_step (sent start CHUNK_SIZE w) w1 /\
    ((forall n s c, page_response env n s c <> Timeout) ->
     requests w1 = requests w ++ [(start, CHUNK_SIZE)]) /\
    download_window env count l start w =
    match fs with
    | [] => (Ok (add_missing start l), logged Warning (EmptyChunk start) w1)
    | _ :: _ =>
        let n := Z.of_nat (length fs) in
        (Ok {| tmp_files := tmp_files l ++ [start];
               total_fetched := total_fetched l + n;
               missing_chunks := missing_chunks l |},
         logged Info (FetchedChunk start (Z.min (start + CHUNK_SIZE) count) n)
           (set_temp_chunks (<[start := fs]> (temp_chunks w1))
              (logged Info (FetchedFeatures n start) w1)))
    end.
Proof.
  destruct (download_window_eq env count l start w) as (fs & w1 & E & Hpost & Heq).
  exists fs, w1. split; [exact E|]. split; [exact Hpost|]. split; [|split; [|exact Heq]].
  - destruct (fetch_after_request env start CHUNK_SIZE 1 w ltac:(lia))
      as (fs0 & w0 & E0 & Hq).
    rewrite E in E0. inversion E0; subst. exact Hq.
  - intros Hans.
    destruct (fetch_fuel_answered env (Z.to_nat (Z.log2_up CHUNK_SIZE)) start
                CHUNK_SIZE 1 w (Hans _ _ _)) as (w2 & E2 & Hr & _).
    unfold fetch_features_with_retry, retry_fuel in E. rewrite E in E2.
    inversion E2; subst. exact Hr.
Qed.

(** The download loop over the windows [a], [a + CHUNK_SIZE], ...: what it
    leaves in the locals, in the scratch directory and in the request
    history. *)
Lemma download_loop_full count :
  forall (n : nat) a l (w : World Feature),
    let starts := map (fun i : nat => a + Z.of_nat i * CHUNK_SIZE) (seq 0 n) in
    exists l' w' items missed,
      for_each (download_window env count) starts l w = (Ok l', w') /\
      calm_step w w' /\
      tmp_files l' = tmp_files l ++ map fst items /\
      total_fetched l'
      = total_fetched l + Z.of_nat (length (concat (map snd items))) /\
      missing_chunks l'
      = missing_chunks l ++ map (fun s => (s, page_url s CHUNK_SIZE)) missed /\
      Interleave starts (map fst items) missed /\
      Blocks env a items /\
      Forall (fun it => temp_chunks w' !! fst it = Some (snd it)) items /\
      (forall q, ~ In q (map fst items) ->
                 temp_chunks w' !! q = temp_chunks w !! q) /\
      (n <> 0%nat ->
       exists more, requests w' = requests w ++ (a, CHUNK_SIZE) :: more) /\
      (n = 0%nat -> requests w' = requests w) /\
      ((forall n s c, page_response env n s c <> Timeout) ->
       requests w' = requests w ++ chunk_windows starts).
Proof.
  induction n as [|n IH]; intros a l w starts.
  - exists l, w, [], []. subst starts. simpl. rewrite !app_nil_r, Z.add_0_r.
    split; [reflexivity|]. split; [apply calm_refl|].
    split; [reflexivity|]. split; [reflexivity|]. split; [reflexivity|].
    split; [constructor|]. split; [constructor|]. split; [constructor|].
    split; [reflexivity|]. split; [intros H; contradiction|].
    split; reflexivity.
  - subst starts. simpl seq. rewrite <- seq_shift. cbn [map]. rewrite map_map.
    replace (a + Z.of_nat 0 * CHUNK_SIZE) with a by (simpl; lia).
    erewrite map_ext
      with (g := fun i : nat => (a + CHUNK_SIZE) + Z.of_nat i * CHUNK_SIZE)
      by (intros i; lia).
    cbn [for_each]. unfold bind at 1.
    destruct (download_window_full count l a w)
      as (fs & w1 & _ & (Hq & Hp) & Hsent & Hone & ->).
    assert (Hfirst : exists more, requests w1 = requests w ++ (a, CHUNK_SIZE) :: more).
    { destruct Hsent as (_ & _ & _ & (more & Hr)). exists more.
      rewrite Hr. simpl. rewrite <- app_assoc. reflexivity. }
    destruct fs as [|f fs].
    + destruct (IH (a + CHUNK_SIZE) (add_missing a l)
                  (logged Warning (EmptyChunk a) w1))
        as (l' & w' & items & missed & E & Hcalm & Htmp & Htot & Hmiss & Hint
            & Hb & Hlook & Hframe & Hreq1 & Hreq0 & Hreqs).
      exists l', w', items, (a :: missed).
      split; [exact E|]. split.
      { eapply calm_trans; [apply quiet_calm, Hq|].
        eapply calm_trans; [|exact Hcalm]. apply calm_logged. reflexivity. }
      split; [exact Htmp|]. split; [exact Htot|]. split.
      { rewrite Hmiss. simpl. rewrite <- app_assoc. reflexivity. }
      split; [constructor; exact Hint|]. split.
      { eapply Blocks_weaken; [|exact Hb]. unfold CHUNK_SIZE. lia. }
      split; [exact Hlook|]. split.
      { intros q Hq'. rewrite (Hframe q Hq'). simpl.
        destruct Hq as (Ht & _). rewrite Ht. reflexivity. }
      split.
      { intros _. destruct Hcalm as (_ & _ & (reqs & Hr)).
        destruct Hfirst as (more & Hm). exists (more ++ reqs).
        rewrite Hr. simpl. rewrite Hm, <- app_assoc. reflexivity. }
      split; [discriminate|].
      intros Hans. rewrite (Hreqs Hans). simpl. rewrite (Hone Hans), <- app_assoc.
      reflexivity.
    + cbv beta iota zeta.
      match goal with
      | |- context [for_each _ _ ?l1 ?w2] =>
          destruct (IH (a + CHUNK_SIZE) l1 w2)
            as (l' & w' & items & missed & E & Hcalm & Htmp & Htot & Hmiss & Hint
                & Hb & Hlook & Hframe & Hreq1 & Hreq0 & Hreqs)
      end.
      pose proof (Blocks_lower env _ _ Hb) as Hlower.
      assert (Hfresh : ~ In a (map fst items)).
      { intros Hin. apply in_map_iff in Hin. destruct Hin as (it & Hit & Hin).
        rewrite Forall_forall in Hlower. apply list_elem_of_In in Hin.
        specialize (Hlower it Hin). simpl in Hlower.
        unfold CHUNK_SIZE in Hlower. lia. }
      exists l', w', ((a, f :: fs) :: items), missed.
      split; [exact E|]. split.
      { eapply calm_trans; [apply quiet_calm, Hq|].
        eapply calm_trans; [|exact Hcalm].
        eapply calm_trans; [|apply calm_logged; reflexivity].
        eapply calm_trans; [|apply calm_set_temp].
        apply calm_logged. reflexivity. }
      split; [rewrite Htmp; simpl; rewrite <- app_assoc; reflexivity|].
      split.
      { rewrite Htot. cbn [total_fetched map snd concat].
        rewrite (length_app (f :: fs)), Nat2Z.inj_add. lia. }
      split; [exact Hmiss|]. split; [constructor; exact Hint|]. split.
      { destruct (Hp ltac:(unfold CHUNK_SIZE; lia)) as (pages & Hrec & Hasc & Hserved).
        econstructor; try eassumption; [lia | discriminate]. }
      split.
      { constructor; [|exact Hlook].
        simpl. rewrite (Hframe a Hfresh). simpl. apply lookup_insert_eq. }
      split.
      { intros q Hq'. simpl in Hq'.
        rewrite (Hframe q ltac:(tauto)). simpl.
        rewrite lookup_insert_ne by (intros ->; tauto).
        destruct Hq as (Ht & _). rewrite Ht. reflexivity. }
      split.
      { intros _. destruct Hcalm as (_ & _ & (reqs & Hr)).
        destruct Hfirst as (more & Hm). exists (more ++ reqs).
        rewrite Hr. simpl. rewrite Hm, <- app_assoc. reflexivity. }
      split; [discriminate|].
      intros Hans. rewrite (Hreqs Hans). simpl. rewrite (Hone Hans), <- app_assoc.
      reflexivity.
Qed.

(** The merge loop removes every scratch file it reads and sends nothing. *)
Lemma merge_loop_full :
  forall items lo acc (w : World Feature),
    Blocks env lo items ->
    Forall (fun it => temp_chunks w !! fst it = Some (snd it)) items ->
    exists w',
      for_each (merge_chunk env) (map fst items) acc w
      = (Ok (acc ++ map snd (List.filter (readable env) items)), w') /\
      calm_step w w' /\
      requests w' = requests w /\
      (forall q, In q (map fst items) -> temp_chunks w' !! q = None) /\
      (forall q, ~ In q (map fst items) ->
                 temp_chunks w' !! q = temp_chunks w !! q).
Proof.
  induction items as [|[p c] items IH]; intros lo acc w Hb Hlook.
  - exists w. simpl. rewrite app_nil_r.
    split; [reflexivity|]. split; [apply calm_refl|]. split; [reflexivity|].
    split; [intros q []|reflexivity].
  - inversion Hb as [|lo0 p0 c0 pages items0 Hlo Hne Hc Ha Hs Hrest]; subst.
    inversion Hlook as [|it its Hp Hothers]; subst. simpl in Hp.
    pose proof (Blocks_lower env _ _ Hrest) as Hlower.
    assert (Hfresh : ~ In p (map fst items)).
    { intros Hin. apply in_map_iff in Hin. destruct Hin as (it & Hit & Hin).
      rewrite Forall_forall in Hlower. apply list_elem_of_In in Hin.
      specialize (Hlower it Hin). simpl in Hlower.
      unfold CHUNK_SIZE in Hlower. lia. }
    assert (Hkeep : forall w1 : World Feature,
               temp_chunks w1 = temp_chunks w ->
               Forall (fun it => temp_chunks
                                   (set_temp_chunks (delete p (temp_chunks w1)) w1)
                                 !! fst it = Some (snd it))
                      items).
    { intros w1 Hw1. cbn [temp_chunks set_temp_chunks]. rewrite Hw1.
      apply Forall_forall. intros it Hin.
      rewrite Forall_forall in Hothers.
      specialize (Hothers it Hin).
      rewrite lookup_delete_ne; [exact Hothers|].
      intros ->. apply Hfresh. apply in_map_iff. exists it.
      split; [reflexivity|]. apply list_elem_of_In. exact Hin. }
    cbn [map fst for_each]. unfold bind at 1.
    rewrite (merge_chunk_eq env acc p (records pages) w Hp).
    cbn [List.filter]. unfold readable at 1. cbn [fst snd].
    set (w2 := if geojson_readable env p (records pages)
               then set_temp_chunks (delete p (temp_chunks w)) w
               else set_temp_chunks (delete p (temp_chunks w))
                      (logged Error (ErrorReadingTemp p) w)).
    assert (Hw2 : temp_chunks w2 = delete p (temp_chunks w) /\
                  requests w2 = requests w /\ calm_step w w2 /\
                  Forall (fun it => temp_chunks w2 !! fst it = Some (snd it)) items).
    { unfold w2. destruct (geojson_readable env p (records pages)).
      - split; [reflexivity|]. split; [reflexivity|].
        split; [apply calm_set_temp | apply (Hkeep w eq_refl)].
      - split; [reflexivity|]. split; [reflexivity|]. split.
        + eapply calm_trans; [|apply calm_set_temp].
          apply calm_logged. reflexivity.
        + apply (Hkeep (logged Error (ErrorReadingTemp p) w) eq_refl). }
    destruct Hw2 as (Ht2 & Hr2 & Hc2 & Hl2).
    destruct (IH (p + CHUNK_SIZE)
                (if geojson_readable env p (records pages)
                 then acc ++ [records pages] else acc) w2 Hrest Hl2)
      as (w' & E & Hcalm & Hreq & Hgone & Hframe).
    exists w'. split.
    { unfold w2 in E. destruct (geojson_readable env p (records pages)).
      - rewrite E. cbn [map snd]. rewrite <- app_assoc. reflexivity.
      - exact E. }
    split; [eapply calm_trans; eassumption|].
    split; [congruence|]. split.
    + intros q [<-|Hin].
      * rewrite (Hframe p Hfresh), Ht2. apply lookup_delete_eq.
      * apply Hgone. exact Hin.
    + intros q Hq. simpl in Hq.
      rewrite (Hframe q ltac:(tauto)), Ht2.
      apply lookup_delete_ne. intros ->. tauto.
Qed.

(** A run of [process_layer] that reaches the download loop. *)
Lemma process_layer_full (w : World Feature) :
  reported_count env <> 0 -> ~ complete env w ->
  exists l w' items missed,
    let starts :=
      map (fun i : nat => 0 + Z.of_nat i * CHUNK_SIZE)
          (seq 0 (Z.to_nat (range_len 0 (reported_count env) CHUNK_SIZE))) in
    process_layer env w
    = (Ok (match List.filter (readable env) items with
           | [] => NoValidGeoDataFrames l
           | _ :: _ =>
               Saved l (concat (map snd (List.filter (readable env) items)))
           end), w') /\
    tmp_files l = map fst items /\
    total_fetched l = Z.of_nat (length (concat (map snd items))) /\
    missing_chunks l = map (fun s => (s, page_url s CHUNK_SIZE)) missed /\
    Interleave starts (map fst items) missed /\
    Blocks env 0 items /\
    (forall q, In q (map fst items) -> temp_chunks w' !! q = None) /\
    (forall q, ~ In q (map fst items) ->
               temp_chunks w' !! q = temp_chunks w !! q) /\
    (starts <> [] ->
     exists more, requests w' = requests w ++ (0, CHUNK_SIZE) :: more) /\
    (starts = [] -> requests w' = requests w) /\
    ((forall n s c, page_response env n s c <> Timeout) ->
     requests w' = requests w ++ chunk_windows starts).
Proof.
  intros Hnz Hinc. unfold process_layer.
  rewrite (bind_ok _ _ _ _ _ (logger_eq _ _ _)).
  destruct (get_feature_count_eq env (logged Info StartingDownload w)) as (wc & Ec & Hc).
  rewrite (bind_ok _ _ _ _ _ Ec).
  rewrite (bind_ok _ _ _ _ _ (logger_eq _ _ _)).
  assert (H0 : log_only w (logged Info (FeaturesToDownload (reported_count env)) wc)).
  { eapply log_only_trans; [|apply log_only_logged; reflexivity].
    eapply log_only_trans; [|exact Hc]. apply log_only_logged. reflexivity. }
  set (w0 := logged Info (FeaturesToDownload (reported_count env)) wc) in *.
  destruct (Z.eqb_spec (reported_count env) 0) as [Hz|_]; [contradiction|].
  cbn [FORCE_OVERWRITE negb].
  destruct (check_existing_geopackage_eq (reported_count env) w0)
    as (b & we & Ee & He & Hb).
  rewrite (bind_ok _ _ _ _ _ Ee).
  assert (H1 : log_only w we) by (eapply log_only_trans; eassumption).
  assert (Hg0 : geopackage w0 = geopackage w) by apply H0.
  rewrite Hg0 in Hb. fold (complete env w) in Hb.
  destruct b; [exfalso; apply Hinc, Hb; reflexivity|].
  destruct H1 as (Hr1 & Ht1 & _ & _).
  rewrite py_range_chunks.
  set (n := Z.to_nat (range_len 0 (reported_count env) CHUNK_SIZE)).
  destruct (download_loop_full (reported_count env) n 0
              {| tmp_files := []; total_fetched := 0; missing_chunks := [] |} we)
    as (l & wd & items & missed & Ed & Hd & Htmp & Htot & Hmiss & Hint & Hblocks
        & Hlook & Hframe & Hreq1 & Hreq0 & Hreqs).
  cbv zeta in Ed, Hint, Hreqs.
  rewrite (bind_ok _ _ _ _ _ Ed).
  cbn [tmp_files app] in Htmp. cbn [total_fetched] in Htot.
  cbn [missing_chunks app] in Hmiss. rewrite Htmp.
  destruct (merge_loop_full items 0 [] wd Hblocks Hlook)
    as (wm & Em & Hm & Hreqm & Hgone & Hframem).
  rewrite (bind_ok _ _ _ _ _ Em). cbn [app].
  assert (Htemp_in : forall q, In q (map fst items) -> temp_chunks wm !! q = None)
    by exact Hgone.
  assert (Htemp_out : forall q, ~ In q (map fst items) ->
                                temp_chunks wm !! q = temp_chunks w !! q).
  { intros q Hq. rewrite (Hframem q Hq), (Hframe q Hq), Ht1. reflexivity. }
  assert (Hfirst : n <> 0%nat ->
                   exists more, requests wm = requests w ++ (0, CHUNK_SIZE) :: more).
  { intros Hn. destruct (Hreq1 Hn) as (more & Hmore). exists more.
    rewrite Hreqm, Hmore, Hr1. reflexivity. }
  assert (Hnone : n = 0%nat -> requests wm = requests w).
  { intros Hn. rewrite Hreqm, (Hreq0 Hn), Hr1. reflexivity. }
  assert (Hall : (forall n s c, page_response env n s c <> Timeout) ->
                 requests wm
                 = requests w
                   ++ chunk_windows
                        (map (fun i : nat => 0 + Z.of_nat i * CHUNK_SIZE) (seq 0 n))).
  { intros Hans. rewrite Hreqm, (Hreqs Hans), Hr1. reflexivity. }
  assert (Hstarts : forall (P : Prop),
             (map (fun i : nat => 0 + Z.of_nat i * CHUNK_SIZE) (seq 0 n) <> []
              -> (n <> 0%nat -> P) -> P) /\
             (map (fun i : nat => 0 + Z.of_nat i * CHUNK_SIZE) (seq 0 n) = []
              -> (n = 0%nat -> P) -> P)).
  { intros P. destruct n as [|n']; split; intros H HP.
    - exfalso. apply H. reflexivity.
    - apply HP. reflexivity.
    - apply HP. discriminate.
    - discriminate H. }
  destruct (List.filter (readable env) items) as [|it kept] eqn:Ef.
  - cbn [map]. rewrite (bind_ok _ _ _ _ _ (logger_eq _ _ _)).
    exists l, (logged Warning NoValidFrames wm), items, missed.
    cbv zeta. rewrite Ef. split; [reflexivity|].
    split; [exact Htmp|]. split; [exact Htot|]. split; [exact Hmiss|].
    split; [exact Hint|]. split; [exact Hblocks|].
    split; [exact Htemp_in|]. split; [exact Htemp_out|].
    split; [intros H; apply (proj1 (Hstarts _) H); exact Hfirst|].
    split; [intros H; apply (proj2 (Hstarts _) H); exact Hnone|].
    exact Hall.
  - cbn [map]. cbv zeta.
    unfold to_file at 1.
    match goal with
    | |- context [bind ?m ?k wm] =>
        change (bind m k wm) with (k tt (set_geopackage
                  (Some (Table (concat (snd it :: map snd kept)))) wm))
    end.
    cbv beta.
    rewrite (bind_ok _ _ _ _ _ (logger_eq _ _ _)).
    rewrite (bind_ok _ _ _ _ _ (logger_eq _ _ _)).
    match goal with
    | |- context [bind (report_missing l) _ ?w3] =>
        destruct (report_missing_eq l w3) as (wr & Er & Hr);
        rewrite (bind_ok _ _ _ _ _ Er)
    end.
    destruct Hr as (Hrr & Hrt & _ & _). cbn in Hrr, Hrt.
    exists l, wr, items, missed.
    cbv zeta. rewrite Ef. split; [reflexivity|].
    split; [exact Htmp|]. split; [exact Htot|]. split; [exact Hmiss|].
    split; [exact Hint|]. split; [exact Hblocks|].
    rewrite Hrt, Hrr.
    split; [exact Htemp_in|]. split; [exact Htemp_out|].
    split; [intros H; apply (proj1 (Hstarts _) H); exact Hfirst|].
    split; [intros H; apply (proj2 (Hstarts _) H); exact Hnone|].
    exact Hall.
Qed.

End LayerMore.

Section LayerRuns.
Context {Feature : Type}.
Variable env : Env Feature.

Lemma Interleave_length {A : Type} (xs ls rs : list A) :
  Interleave xs ls rs -> length xs = (length ls + length rs)%nat.
Proof. induction 1; simpl; lia. Qed.

Lemma Interleave_nil_inv {A : Type} (ls rs : list A) :
  Interleave [] ls rs -> ls = [] /\ rs = [].
Proof. intros H. inversion H. split; reflexivity. Qed.

Lemma Blocks_rows lo (items : list (Z * list Feature)) :
  Blocks env lo items ->
  (length items <= length (concat (map snd items)))%nat.
Proof.
  induction 1 as [lo|lo p c pages items Hlo Hne Hc Ha Hs Hb IH]; simpl; [lia|].
  rewrite length_app. destruct c; [contradiction|]. simpl. lia.
Qed.

Lemma kept_rows (f : Z * list Feature -> bool) items :
  (length (concat (map snd (List.filter f items)))
   <= length (concat (map snd items)))%nat.
Proof.
  induction items as [|it items IH]; simpl; [lia|].
  destruct (f it); simpl; rewrite !length_app; lia.
Qed.

Lemma kept_rows_pos lo (items : list (Z * list Feature)) f :
  Blocks env lo items -> List.filter f items <> [] ->
  (1 <= length (concat (map snd (List.filter f items))))%nat.
Proof.
  induction 1 as [lo|lo p c pages items Hlo Hne Hc Ha Hs Hb IH]; simpl;
    [contradiction|].
  destruct (f (p, c)); simpl.
  - intros _. rewrite length_app. destruct c; [contradiction|]. simpl. lia.
  - exact IH.
Qed.

Lemma filter_all {A : Type} (f : A -> bool) (xs : list A) :
  (forall x, f x = true) -> List.filter f xs = xs.
Proof.
  intros H. induction xs as [|x xs IH]; simpl; [reflexivity|].
  rewrite H, IH. reflexivity.
Qed.

(** A run that reached the download loop, seen from its result. *)
Lemma process_layer_run (w : World Feature) outcome w' l :
  process_layer env w = (Ok outcome, w') ->
  locals_of outcome = Some l ->
  reported_count env <> 0 /\ ~ complete env w /\
  exists items missed,
    let starts :=
      map (fun i : nat => 0 + Z.of_nat i * CHUNK_SIZE)
          (seq 0 (Z.to_nat (range_len 0 (reported_count env) CHUNK_SIZE))) in
    outcome = match List.filter (readable env) items with
              | [] => NoValidGeoDataFrames l
              | _ :: _ =>
                  Saved l (concat (map snd (List.filter (readable env) items)))
              end /\
    tmp_files l = map fst items /\
    total_fetched l = Z.of_nat (length (concat (map snd items))) /\
    missing_chunks l = map (fun s => (s, page_url s CHUNK_SIZE)) missed /\
    Interleave starts (map fst items) missed /\
    Blocks env 0 items /\
    (forall q, In q (map fst items) -> temp_chunks w' !! q = None) /\
    (forall q, ~ In q (map fst items) ->
               temp_chunks w' !! q = temp_chunks w !! q) /\
    (starts <> [] ->
     exists more, requests w' = requests w ++ (0, CHUNK_SIZE) :: more) /\
    (starts = [] -> requests w' = requests w) /\
    ((forall n s c, page_response env n s c <> Timeout) ->
     requests w' = requests w ++ chunk_windows starts).
Proof.
  intros E Hl.
  destruct (process_layer_spec env w) as (o & w0 & E0 & _ & Hpost).
  rewrite E in E0. inversion E0; subst o w0.
  assert (H : reported_count env <> 0 /\ ~ complete env w).
  { destruct outcome as [| |l0|l0 c0]; try discriminate; simpl in Hpost;
      destruct Hpost as (Hnz & Hinc & _); split; assumption. }
  destruct H as (Hnz & Hinc). split; [exact Hnz|]. split; [exact Hinc|].
  destruct (process_layer_full env w Hnz Hinc)
    as (l1 & w1 & items & missed & E1 & Hrest).
  cbv zeta in E1. rewrite E in E1. inversion E1 as [[Ho Hw]].
  assert (l = l1).
  { rewrite Ho in Hl. destruct (List.filter (readable env) items);
      simpl in Hl; congruence. }
  subst l1. exists items, missed. cbv zeta. split; [reflexivity|].
  cbv zeta in Hrest. exact Hrest.
Qed.

(** X4. Every window of the layer is either written to a scratch file or
    put on the missing list, never both and never neither: the starts of
    [range(0, count, CHUNK_SIZE)] are the scratch files and the missing
    starts shuffled together in ascending order, and each missing entry
    carries the URL of its own window with [count=CHUNK_SIZE]. *)
Theorem windows_written_or_missing (w : World Feature) outcome w' l :
  process_layer env w = (Ok outcome, w') ->
  locals_of outcome = Some l ->
  exists starts,
    py_range 0 (reported_count env) CHUNK_SIZE = Some starts /\
    Interleave starts (tmp_files l) (map fst (missing_chunks l)) /\
    Forall (fun m => snd m = page_url (fst m) CHUNK_SIZE) (missing_chunks l) /\
    length starts = (length (tmp_files l) + length (missing_chunks l))%nat.
Proof.
  intros E Hl.
  destruct (process_layer_run w outcome w' l E Hl)
    as (_ & _ & items & missed & _ & Htmp & _ & Hmiss & Hint & _).
  cbv zeta in Hint. eexists. split; [apply py_range_chunks|].
  assert (Hm : map fst (missing_chunks l) = missed).
  { rewrite Hmiss, map_map. simpl. apply map_id. }
  rewrite Htmp, Hm. split; [exact Hint|]. split.
  - rewrite Hmiss. apply Forall_forall. intros m Hin.
    apply list_elem_of_In, in_map_iff in Hin. destruct Hin as (s & <- & _).
    reflexivity.
  - rewrite (Interleave_length _ _ _ Hint), Hmiss, !length_map. reflexivity.
Qed.

(** X5. [total_fetched] counts the records written to scratch files: it is
    at least the number of scratch files, the saved collection is never
    empty and never larger than [total_fetched], and it has exactly
    [total_fetched] rows when geopandas can read every scratch file back. *)
Theorem fetched_rows_accounting (w : World Feature) outcome w' l :
  process_layer env w = (Ok outcome, w') ->
  locals_of outcome = Some l ->
  Z.of_nat (length (tmp_files l)) <= total_fetched l /\
  (forall combined,
      outcome = Saved l combined ->
      1 <= Z.of_nat (length combined) <= total_fetched l) /\
  ((forall p c, geojson_readable env p c = true) ->
   (forall combined,
       outcome = Saved l combined ->
       Z.of_nat (length combined) = total_fetched l) /\
   (outcome = NoValidGeoDataFrames l ->
    tmp_files l = [] /\ total_fetched l = 0)).
Proof.
  intros E Hl.
  destruct (process_layer_run w outcome w' l E Hl)
    as (_ & _ & items & missed & Ho & Htmp & Htot & _ & _ & Hb & _).
  split; [|split].
  - rewrite Htmp, Htot, length_map. pose proof (Blocks_rows 0 items Hb). lia.
  - intros combined Hc. rewrite Hc in Ho.
    destruct (List.filter (readable env) items) as [|it kept] eqn:Ef;
      [discriminate|].
    injection Ho as Hcomb. rewrite Hcomb, Htot.
    pose proof (kept_rows (readable env) items) as Hle.
    pose proof (kept_rows_pos 0 items (readable env) Hb) as Hpos.
    rewrite Ef in Hle, Hpos. specialize (Hpos ltac:(discriminate)).
    change (concat (map snd (it :: kept)))
      with (snd it ++ concat (map snd kept)) in Hle, Hpos.
    lia.
  - intros Hread.
    assert (Hf : List.filter (readable env) items = items)
      by (apply filter_all; intros [p c]; apply Hread).
    rewrite Hf in Ho. split.
    + intros combined Hc. rewrite Hc in Ho. destruct items; [discriminate|].
      injection Ho as Hcomb. rewrite Hcomb, Htot. reflexivity.
    + intros Hn. rewrite Hn in Ho. destruct items; [|discriminate].
      rewrite Htmp, Htot. split; reflexivity.
Qed.

(** X6. A run cleans its scratch files up: when [process_layer] returns,
    every scratch file it wrote is gone from the scratch directory, also
    the ones geopandas could not read, and every other file of the
    directory is as it was. *)
Theorem scratch_files_removed (w : World Feature) outcome w' :
  process_layer env w = (Ok outcome, w') ->
  forall q,
    (In q (written_by outcome) -> temp_chunks w' !! q = None) /\
    (~ In q (written_by outcome) -> temp_chunks w' !! q = temp_chunks w !! q).
Proof.
  intros E q. unfold written_by.
  destruct (locals_of outcome) as [l|] eqn:Hl.
  - destruct (process_layer_run w outcome w' l E Hl)
      as (_ & _ & items & missed & _ & Htmp & _ & _ & _ & _ & Hin & Hout & _).
    rewrite Htmp. split; [apply Hin | apply Hout].
  - split; [intros []|]. intros _.
    destruct (process_layer_spec env w) as (o & w0 & E0 & _ & Hpost).
    rewrite E in E0. inversion E0; subst o w0.
    destruct outcome as [| |l|l c]; try discriminate; simpl in Hpost.
    + destruct Hpost as (_ & _ & Ht & _). rewrite Ht. reflexivity.
    + destruct Hpost as (_ & _ & _ & Ht & _). rewrite Ht. reflexivity.
Qed.

(** X7. Running twice.  After a run that saved exactly as many rows as the
    server reports, the next run against the same count finds the
    GeoPackage complete: it returns without a page request and leaves the
    scratch directory and the GeoPackage as they are. *)
Theorem second_run_is_skipped (w : World Feature) l combined w1 :
  process_layer env w = (Ok (Saved l combined), w1) ->
  Z.of_nat (length combined) = reported_count env ->
  exists w2,
    process_layer env w1 = (Ok AlreadyComplete, w2) /\
    requests w2 = requests w1 /\
    temp_chunks w2 = temp_chunks w1 /\
    geopackage w2 = Some (Table combined).
Proof.
  intros E Hlen.
  destruct (process_layer_spec env w) as (o & w0 & E0 & _ & Hpost).
  rewrite E in E0. inversion E0; subst o w0. simpl in Hpost.
  destruct Hpost as (Hnz & _ & Hg & _).
  assert (Hcomplete : complete env w1) by (exists combined; split; assumption).
  destruct (process_layer_spec env w1) as (o & w2 & E2 & _ & Hpost2).
  destruct o as [| |l2|l2 c2]; simpl in Hpost2.
  - destruct Hpost2 as (Hz & _). contradiction.
  - destruct Hpost2 as (_ & _ & Hr & Ht & Hg2 & _).
    exists w2. split; [exact E2|]. split; [exact Hr|]. split; [exact Ht|].
    rewrite Hg2. exact Hg.
  - destruct Hpost2 as (_ & Hn & _). contradiction.
  - destruct Hpost2 as (_ & Hn & _). contradiction.
Qed.

Lemma chunk_range_nonempty count :
  0 < count -> Z.to_nat (range_len 0 count CHUNK_SIZE) <> 0%nat.
Proof.
  intros Hc. replace count with (0 + count) by lia.
  rewrite range_len_pos by (unfold CHUNK_SIZE; lia).
  assert (0 <= (count - 1) / CHUNK_SIZE)
    by (apply Z.div_pos; unfold CHUNK_SIZE; lia).
  lia.
Qed.

(** X8. An incomplete output is fetched again.  When the server reports a
    positive count and the GeoPackage on disk is missing, unreadable or
    holds another number of rows, the run sends page requests, and the
    first one asks for [CHUNK_SIZE] features at offset 0. *)
Theorem incomplete_output_is_refetched (w : World Feature) :
  0 < reported_count env -> ~ complete env w ->
  exists outcome w' more,
    process_layer env w = (Ok outcome, w') /\
    requests w' = requests w ++ (0, CHUNK_SIZE) :: more.
Proof.
  intros Hpos Hinc.
  destruct (process_layer_full env w ltac:(lia) Hinc)
    as (l & w' & items & missed & E & _ & _ & _ & _ & _ & _ & _ & Hfirst & _).
  cbv zeta in E, Hfirst.
  destruct Hfirst as (more & Hmore).
  { pose proof (chunk_range_nonempty _ Hpos) as Hn.
    destruct (Z.to_nat (range_len 0 (reported_count env) CHUNK_SIZE));
      [contradiction | discriminate]. }
  eexists _, w', more. split; [exact E | exact Hmore].
Qed.

(** X9. A negative count.  When the server reports a negative number of
    features, the run sends no page request, writes nothing and returns
    through the warning about no valid frames, with empty locals. *)
Theorem negative_count_fetches_nothing (w : World Feature) :
  reported_count env < 0 ->
  exists w',
    process_layer env w
    = (Ok (NoValidGeoDataFrames
             {| tmp_files := []; total_fetched := 0; missing_chunks := [] |}),
       w') /\
    requests w' = requests w /\
    temp_chunks w' = temp_chunks w /\
    geopackage w' = geopackage w.
Proof.
  intros Hneg.
  assert (Hinc : ~ complete env w) by (intros (rows & _ & Hlen); lia).
  destruct (process_layer_full env w ltac:(lia) Hinc)
    as (l & w' & items & missed & E & Htmp & Htot & Hmiss & Hint & _ & _ & Hout
        & _ & Hnone & _).
  cbv zeta in E, Hint, Hnone.
  assert (Hr : range_len 0 (reported_count env) CHUNK_SIZE = 0).
  { unfold range_len, CHUNK_SIZE.
    destruct (Z.ltb_spec 0 (reported_count env)); [lia|].
    rewrite andb_false_r. reflexivity. }
  rewrite Hr in Hint, Hnone. simpl in Hint, Hnone.
  destruct (Interleave_nil_inv _ _ Hint) as (Hi & ->).
  destruct items; [|discriminate].
  destruct l as [tf tot mc].
  cbn [tmp_files total_fetched missing_chunks map concat length Z.of_nat]
    in Htmp, Htot, Hmiss.
  subst tf tot mc. cbn [List.filter] in E.
  exists w'. split; [exact E|]. split; [apply Hnone; reflexivity|].
  split.
  - apply map_eq. intros q. apply Hout. simpl. tauto.
  - destruct (process_layer_spec env w) as (o & w0 & E0 & _ & Hpost).
    rewrite E in E0. inversion E0; subst o w0. simpl in Hpost.
    destruct Hpost as (_ & _ & Hg & _). exact Hg.
Qed.

(** X10. Without timeouts there are no retries: when no page request times
    out, a run that reaches the download loop sends exactly one request
    per window of [range(0, count, CHUNK_SIZE)], in ascending order, each
    asking for [CHUNK_SIZE] features, the last window included. *)
Theorem one_request_per_window (w : World Feature) :
  (forall n s c, page_response env n s c <> Timeout) ->
  reported_count env <> 0 -> ~ complete env w ->
  exists outcome w' starts,
    py_range 0 (reported_count env) CHUNK_SIZE = Some starts /\
    process_layer env w = (Ok outcome, w') /\
    requests w' = requests w ++ chunk_windows starts.
Proof.
  intros Hans Hnz Hinc.
  destruct (process_layer_full env w Hnz Hinc)
    as (l & w' & items & missed & E & _ & _ & _ & _ & _ & _ & _ & _ & _ & Hall).
  cbv zeta in E, Hall.
  eexists _, w', _. split; [apply py_range_chunks|].
  split; [exact E | exact (Hall Hans)].
Qed.

End LayerRuns.

(** X11. The windows of the download loop.  For a positive count the
    starts of [range(0, count, CHUNK_SIZE)] give [ceil(count / CHUNK_SIZE)]
    windows of [CHUNK_SIZE] features that follow each other from offset 0
    without gap or overlap and cover [0, count); the last window ends less
    than [CHUNK_SIZE] after [count].  For a count of zero or less there is
    no window. *)
Theorem top_level_windows_tile count :
  (count <= 0 -> py_range 0 count CHUNK_SIZE = Some []) /\
  (0 < count ->
   exists starts,
     py_range 0 count CHUNK_SIZE = Some starts /\
     length starts = pieces count CHUNK_SIZE /\
     Tiling 0 (Z.of_nat (pieces count CHUNK_SIZE) * CHUNK_SIZE)
       (chunk_windows starts) /\
     count <= Z.of_nat (pieces count CHUNK_SIZE) * CHUNK_SIZE < count + CHUNK_SIZE).
Proof.
  split.
  - intros Hc. unfold py_range, range_len, CHUNK_SIZE. simpl.
    destruct (Z.ltb_spec 0 count); [lia|]. reflexivity.
  - intros Hc.
    pose proof (py_range_pos 0 count CHUNK_SIZE ltac:(unfold CHUNK_SIZE; lia) Hc) as Hr.
    simpl (0 + count) in Hr.
    eexists. split; [exact Hr|]. split; [|split].
    + rewrite length_map, length_seq. reflexivity.
    + apply (chunk_starts_tiling (pieces count CHUNK_SIZE) 0).
    + destruct (pieces_bounds count CHUNK_SIZE ltac:(unfold CHUNK_SIZE; lia) Hc)
        as (_ & Hb).
      lia.
Qed.

(** * Properties of the file names *)

Module PathFacts.
Import Ascii String Paths.
Local Open Scope string_scope.

Lemma append_inv_head (a x y : string) : a ++ x = a ++ y -> x = y.
Proof.
  induction a as [|c a IH]; simpl; intros H; [exact H|].
  injection H as H. apply IH, H.
Qed.

Lemma list_ascii_of_string_app (a b : string) :
  list_ascii_of_string (a ++ b)
  = (list_ascii_of_string a ++ list_ascii_of_string b)%list.
Proof. induction a as [|c a IH]; simpl; [reflexivity|]. rewrite IH. reflexivity. Qed.

Lemma list_ascii_of_string_inj (a b : string) :
  list_ascii_of_string a = list_ascii_of_string b -> a = b.
Proof.
  intros H. rewrite <- (string_of_list_ascii_of_string a),
              <- (string_of_list_ascii_of_string b), H.
  reflexivity.
Qed.

Lemma append_inv_tail (x y t : string) : x ++ t = y ++ t -> x = y.
Proof.
  intros H. apply list_ascii_of_string_inj.
  apply (f_equal list_ascii_of_string) in H.
  rewrite !list_ascii_of_string_app in H.
  exact (List.app_inv_tail _ _ _ H).
Qed.

Lemma to_int_not_nil (z : Z) :
  Z.to_int z <> Decimal.Pos Decimal.Nil /\ Z.to_int z <> Decimal.Neg Decimal.Nil.
Proof.
  split; intros H; pose proof (f_equal Z.of_int H) as H0;
    rewrite DecimalZ.of_to in H0; simpl in H0; subst z; discriminate H.
Qed.

Lemma str_inj (a b : Z) : str a = str b -> a = b.
Proof.
  unfold str. intros H.
  apply (f_equal DecimalString.NilZero.int_of_string) in H.
  destruct (to_int_not_nil a) as (Ha1 & Ha2).
  destruct (to_int_not_nil b) as (Hb1 & Hb2).
  rewrite !DecimalString.NilZero.isi in H by assumption.
  injection H as H. apply DecimalZ.to_int_inj, H.
Qed.

Lemma occurs_cons (c d : ascii) (s : string) :
  occurs c (String d s) <-> d = c \/ occurs c s.
Proof. unfold occurs. simpl. tauto. Qed.

Lemma occurs_app (c : ascii) (a b : string) :
  occurs c (a ++ b) <-> occurs c a \/ occurs c b.
Proof. unfold occurs. rewrite list_ascii_of_string_app. apply in_app_iff. Qed.

Lemma replace_colon_no_colon (s : string) : ~ occurs ":" (replace_colon s).
Proof.
  induction s as [|c s IH]; simpl; [intros []|].
  rewrite occurs_cons. intros [H|H]; [|exact (IH H)].
  destruct (Ascii.eqb_spec c ":"); [discriminate H | congruence].
Qed.

Lemma replace_colon_app (a b : string) :
  replace_colon (a ++ b) = replace_colon a ++ replace_colon b.
Proof. induction a as [|c a IH]; simpl; [reflexivity|]. rewrite IH. reflexivity. Qed.

Lemma replace_colon_inj (a b : string) :
  ~ occurs "_" a -> ~ occurs "_" b ->
  replace_colon a = replace_colon b -> a = b.
Proof.
  revert b. induction a as [|c a IH]; intros [|d b] Ha Hb H; simpl in H;
    try discriminate; [reflexivity|].
  injection H as Hc Hrest.
  rewrite occurs_cons in Ha, Hb.
  f_equal.
  - destruct (Ascii.eqb_spec c ":"), (Ascii.eqb_spec d ":"); subst;
      try reflexivity; tauto.
  - apply IH; tauto.
Qed.

(** X12. The GeoPackage file of a layer: two layer names without an
    underscore get different files. *)
Theorem gpkg_file_distinct (a b : string) :
  ~ occurs "_" a -> ~ occurs "_" b ->
  gpkg_file a = gpkg_file b -> a = b.
Proof.
  intros Ha Hb H. unfold gpkg_file in H.
  apply append_inv_tail in H. apply replace_colon_inj; assumption.
Qed.

(** X13. Layer names that differ only in a colon against an underscore
    share their files: the GeoPackage and every scratch file of
    [a ++ ":" ++ b] are those of [a ++ "_" ++ b], and no file name
    contains a colon. *)
Theorem colon_and_underscore_collide (a b : string) (start : Z) :
  gpkg_file (a ++ ":" ++ b) = gpkg_file (a ++ "_" ++ b) /\
  tmp_file (a ++ ":" ++ b) start = tmp_file (a ++ "_" ++ b) start /\
  ~ occurs ":" (gpkg_file a) /\
  ~ occurs ":" (tmp_file a start).
Proof.
  assert (H : replace_colon (a ++ ":" ++ b) = replace_colon (a ++ "_" ++ b))
    by (rewrite !replace_colon_app; reflexivity).
  unfold gpkg_file, tmp_file. rewrite H.
  split; [reflexivity|]. split; [reflexivity|].
  assert (Hdigits : ~ occurs ":" (str start)).
  { unfold str, DecimalString.NilZero.string_of_int.
    assert (Hu : forall u, ~ occurs ":" (DecimalString.NilEmpty.string_of_uint u)).
    { induction u; simpl; [intros H0; exact H0 | ..];
        (rewrite occurs_cons; intros [Hc|Hc]; [discriminate Hc | tauto]). }
    destruct (Z.to_int start) as [u|u].
    - unfold DecimalString.NilZero.string_of_uint.
      destruct u; try apply Hu. simpl. rewrite occurs_cons.
      intros [Hc|[]]. discriminate Hc.
    - rewrite occurs_cons. intros [Hc|Hc]; [discriminate Hc|].
      revert Hc. unfold DecimalString.NilZero.string_of_uint.
      destruct u; try apply Hu. simpl. rewrite occurs_cons.
      intros [Hc|[]]. discriminate Hc. }
  split.
  - rewrite occurs_app. intros [Hc|Hc].
    + exact (replace_colon_no_colon _ Hc).
    + unfold occurs in Hc. simpl in Hc.
      repeat (destruct Hc as [Hc|Hc]; [discriminate Hc|]). exact Hc.
  - rewrite !occurs_app. intros [Hc|[Hc|[Hc|Hc]]].
    + exact (replace_colon_no_colon _ Hc).
    + unfold occurs in Hc. simpl in Hc.
      repeat (destruct Hc as [Hc|Hc]; [discriminate Hc|]). exact Hc.
    + exact (Hdigits Hc).
    + unfold occurs in Hc. simpl in Hc.
      repeat (destruct Hc as [Hc|Hc]; [discriminate Hc|]). exact Hc.
Qed.

(** X14. The scratch files of a layer: different window starts give
    different file names, so no window overwrites the scratch file of
    another. *)
Theorem tmp_file_distinct_starts (layer_name : string) (s1 s2 : Z) :
  tmp_file layer_name s1 = tmp_file layer_name s2 -> s1 = s2.
Proof.
  unfold tmp_file. intros H.
  apply append_inv_head in H. apply append_inv_head in H.
  apply append_inv_tail in H. apply str_inj, H.
Qed.

Lemma split_colon_no_colon (s : string) :
  Forall (fun piece => ~ occurs ":" piece) (split_colon s).
Proof.
  induction s as [|c s IH]; simpl.
  - constructor; [intros []|constructor].
  - destruct (Ascii.eqb_spec c ":") as [->|Hc].
    + constructor; [intros []|exact IH].
    + destruct (split_colon s) as [|piece pieces].
      * constructor; [|constructor]. rewrite occurs_cons. intros [H|[]]. congruence.
      * inversion IH as [|x xs Hp Hps]; subst. constructor; [|exact Hps].
        rewrite occurs_cons. intros [H|H]; [congruence | exact (Hp H)].
Qed.

Lemma split_colon_shape (s : string) :
  (split_colon s = [s] /\ gpkg_layer s = s) \/
  (exists prefix piece pieces,
      s = prefix ++ String ":" (gpkg_layer s) /\
      split_colon s = piece :: pieces /\ pieces <> []).
Proof.
  unfold gpkg_layer. induction s as [|c s IH].
  - left. split; reflexivity.
  - cbn [split_colon]. destruct (Ascii.eqb_spec c ":") as [->|Hc].
    + right. destruct IH as [(Hs & Hl)|(prefix & piece & pieces & Hs & Hsp & Hne)].
      * exists EmptyString, EmptyString, [s]. rewrite Hs.
        split; [reflexivity|]. split; [reflexivity | discriminate].
      * exists (String ":" prefix), EmptyString, (piece :: pieces).
        rewrite Hsp in *.
        split; [|split; [reflexivity | discriminate]].
        change (String ":" s
                = String ":" (prefix ++ String ":" (List.last (piece :: pieces) ""))).
        f_equal. exact Hs.
    + destruct IH as [(Hs & Hl)|(prefix & piece & pieces & Hs & Hsp & Hne)].
      * left. rewrite Hs. split; reflexivity.
      * right. rewrite Hsp in *.
        exists (String c prefix), (String c piece), pieces.
        destruct pieces as [|p2 ps]; [contradiction|].
        split; [|split; [reflexivity | discriminate]].
        change (String c s
                = String c (prefix ++ String ":" (List.last (piece :: p2 :: ps) ""))).
        f_equal. exact Hs.
Qed.

(** X15. The layer inside the GeoPackage is what follows the last colon of
    the layer name: it has no colon, it is the whole name when the name has
    no colon, and otherwise the name is a prefix, a colon and it. *)
Theorem gpkg_layer_after_last_colon (layer_name : string) :
  ~ occurs ":" (gpkg_layer layer_name) /\
  (~ occurs ":" layer_name -> gpkg_layer layer_name = layer_name) /\
  (occurs ":" layer_name ->
   exists prefix, layer_name = prefix ++ ":" ++ gpkg_layer layer_name).
Proof.
  assert (Hno : ~ occurs ":" (gpkg_layer layer_name)).
  { unfold gpkg_layer. pose proof (split_colon_no_colon layer_name) as H.
    induction H as [|x xs Hx Hxs IH]; simpl; [intros []|].
    destruct xs; [exact Hx | exact IH]. }
  split; [exact Hno|].
  destruct (split_colon_shape layer_name)
    as [(_ & Hl)|(prefix & piece & pieces & Hs & _)].
  - split; [intros _; exact Hl|].
    intros Hc. rewrite Hl in Hno. contradiction.
  - split.
    + intros Hn. exfalso. apply Hn. rewrite Hs, occurs_app, occurs_cons. tauto.
    + intros _. exists prefix. exact Hs.
Qed.

End PathFacts.

(** * Further concrete runs *)

Lemma fetch_run_of (env : Env Z) start_index count min_chunk (w : World Z) fs :
  fst (fetch_features_with_retry env start_index count min_chunk w) = Ok fs ->
  fetch_features_with_retry env start_index count min_chunk w
  = (Ok fs, snd (fetch_features_with_retry env start_index count min_chunk w)).
Proof. intros H. apply injective_projections; [exact H | reflexivity]. Qed.

Lemma fetcher_only_appends_witness :
  1 <= 1 /\
  temp_chunks (snd (fetch_features_with_retry always_timeout 0 4 1 empty_world))
  = temp_chunks empty_world /\
  exists more,
    requests (snd (fetch_features_with_retry always_timeout 0 4 1 empty_world))
    = requests empty_world ++ (0, 4) :: more.
Proof.
  assert (F : fst (fetch_features_with_retry always_timeout 0 4 1 empty_world)
              = Ok []) by (vm_compute; reflexivity).
  destruct (fetcher_only_appends always_timeout 0 4 1 empty_world _ _
              ltac:(lia) (fetch_run_of _ _ _ _ _ _ F)) as (Ht & _ & Hr & _).
  split; [lia|]. split; [exact Ht | exact Hr].
Defined.

Lemma one_shrink_level_witness :
  1 <= 1 /\ 1 < 2000 /\
  page_response flaky_once_server (length (requests empty_world)) 0 2000 = Timeout /\
  exists w',
    fetch_features_with_retry flaky_once_server 0 2000 1 empty_world
    = (Ok [0; 200; 400; 600; 800; 1000; 1200; 1400; 1600; 1800], w') /\
    length (requests w') = 11%nat.
Proof.
  assert (Hans : forall n s c, (length (requests empty_world) < n)%nat ->
                               page_response flaky_once_server n s c <> Timeout).
  { intros n s c Hn. simpl in *. destruct n; [lia | discriminate]. }
  destruct (one_shrink_level flaky_once_server 0 2000 1 empty_world
              ltac:(lia) ltac:(lia) eq_refl Hans) as (w' & E & _ & Hlen).
  split; [lia|]. split; [lia|]. split; [reflexivity|].
  exists w'. split; [exact E | exact Hlen].
Defined.

Lemma floor_timeout_stops_witness :
  1 <= 1 /\
  page_response always_timeout (length (requests empty_world)) 200 1 = Timeout /\
  fst (fetch_features_with_retry always_timeout 200 1 1 empty_world) = Ok [].
Proof.
  split; [lia|]. split; [reflexivity|].
  rewrite (floor_timeout_stops always_timeout 200 1 1 empty_world
             ltac:(lia) eq_refl).
  reflexivity.
Defined.

Lemma slow_run :
  process_layer slow_server empty_world
  = (Ok (Saved {| tmp_files := [0]; total_fetched := 10; missing_chunks := [] |}
           [0; 200; 400; 600; 800; 1000; 1200; 1400; 1600; 1800]),
     snd (process_layer slow_server empty_world)).
Proof. apply run_of. vm_compute. reflexivity. Qed.

Lemma windows_written_or_missing_witness :
  exists starts,
    py_range 0 (reported_count slow_server) CHUNK_SIZE = Some starts /\
    Interleave starts [0] [] /\
    length starts = 1%nat.
Proof.
  destruct (windows_written_or_missing slow_server empty_world _ _ _
              slow_run eq_refl) as (starts & Hr & Hi & _ & Hl).
  exists starts. split; [exact Hr|]. split; [exact Hi | exact Hl].
Defined.

Lemma fetched_rows_accounting_witness :
  Z.of_nat (length [0]) <= 10 /\
  Z.of_nat (length [0; 200; 400; 600; 800; 1000; 1200; 1400; 1600; 1800]) = 10.
Proof.
  destruct (fetched_rows_accounting slow_server empty_world _ _ _
              slow_run eq_refl) as (Hfiles & _ & Hall).
  split; [exact Hfiles|].
  exact (proj1 (Hall (fun _ _ => eq_refl)) _ eq_refl).
Defined.

Lemma scratch_files_removed_witness :
  temp_chunks (snd (process_layer slow_server empty_world)) !! 0 = None.
Proof.
  apply (proj1 (scratch_files_removed slow_server empty_world _ _ slow_run 0)).
  left. reflexivity.
Defined.

Lemma tiny_run :
  process_layer tiny_server empty_world
  = (Ok (Saved {| tmp_files := [0]; total_fetched := 3; missing_chunks := [] |}
           [1; 2; 3]),
     snd (process_layer tiny_server empty_world)).
Proof. apply run_of. vm_compute. reflexivity. Qed.

Lemma second_run_is_skipped_witness :
  Z.of_nat (length [1; 2; 3]) = reported_count tiny_server /\
  exists w2,
    process_layer tiny_server (snd (process_layer tiny_server empty_world))
    = (Ok AlreadyComplete, w2) /\
    requests w2 = requests (snd (process_layer tiny_server empty_world)) /\
    geopackage w2 = Some (Table [1; 2; 3]).
Proof.
  destruct (second_run_is_skipped tiny_server empty_world _ _ _ tiny_run eq_refl)
    as (w2 & E & Hr & _ & Hg).
  split; [reflexivity|]. exists w2. split; [exact E|]. split; [exact Hr | exact Hg].
Defined.

Lemma empty_world_incomplete (env : Env Z) : ~ complete env empty_world.
Proof. intros (rows & H & _). discriminate H. Qed.

Lemma incomplete_output_is_refetched_witness :
  0 < reported_count slow_server /\
  exists outcome w' more,
    process_layer slow_server empty_world = (Ok outcome, w') /\
    requests w' = requests empty_world ++ (0, CHUNK_SIZE) :: more.
Proof.
  split; [reflexivity|].
  apply (incomplete_output_is_refetched slow_server empty_world eq_refl
           (empty_world_incomplete slow_server)).
Defined.

Lemma negative_count_fetches_nothing_witness :
  reported_count negative_count_server < 0 /\
  exists w',
    process_layer negative_count_server empty_world
    = (Ok (NoValidGeoDataFrames
             {| tmp_files := []; total_fetched := 0; missing_chunks := [] |}),
       w') /\
    requests w' = requests empty_world.
Proof.
  split; [reflexivity|].
  destruct (negative_count_fetches_nothing negative_count_server empty_world
              eq_refl) as (w' & E & Hr & _).
  exists w'. split; [exact E | exact Hr].
Defined.

Lemma one_request_per_window_witness :
  reported_count tiny_server <> 0 /\
  exists outcome w' starts,
    py_range 0 (reported_count tiny_server) CHUNK_SIZE = Some starts /\
    process_layer tiny_server empty_world = (Ok outcome, w') /\
    requests w' = requests empty_world ++ chunk_windows starts.
Proof.
  assert (Hans : forall n s c, page_response tiny_server n s c <> Timeout).
  { intros n s c. simpl. destruct (s =? 0); discriminate. }
  assert (Hnz : reported_count tiny_server <> 0) by discriminate.
  split; [exact Hnz|].
  apply (one_request_per_window tiny_server empty_world Hans Hnz
           (empty_world_incomplete tiny_server)).
Defined.

Lemma top_level_windows_tile_witness :
  0 < 5000 /\
  exists starts,
    py_range 0 5000 CHUNK_SIZE = Some starts /\
    length starts = 3%nat /\
    Tiling 0 6000 (chunk_windows starts).
Proof.
  split; [lia|].
  destruct (proj2 (top_level_windows_tile 5000) ltac:(lia))
    as (starts & Hr & Hl & Ht & _).
  exists starts. split; [exact Hr|]. split; [exact Hl | exact Ht].
Defined.

Module PathRuns.
Import Ascii String Paths.
Local Open Scope string_scope.

Lemma gpkg_file_distinct_witness :
  ~ occurs "_" "govmap:roads" /\
  gpkg_file "govmap:roads" = "govmap_roads.gpkg" /\
  "govmap:roads" = "govmap:roads".
Proof.
  assert (H : ~ occurs "_" "govmap:roads").
  { unfold occurs. simpl. intros Hc.
    repeat (destruct Hc as [Hc|Hc]; [discriminate Hc|]). exact Hc. }
  split; [exact H|]. split; [reflexivity|].
  apply (PathFacts.gpkg_file_distinct "govmap:roads" "govmap:roads" H H eq_refl).
Defined.

Lemma tmp_file_distinct_starts_witness :
  tmp_file "govmap:roads" 2000 = "govmap_roads_chunk_2000.geojson" /\
  2000 = 2000.
Proof.
  split; [reflexivity|].
  apply (PathFacts.tmp_file_distinct_starts "govmap:roads" 2000 2000 eq_refl).
Defined.

Lemma gpkg_layer_after_last_colon_witness :
  occurs ":" "govmap:roads" /\
  gpkg_layer "govmap:roads" = "roads" /\
  exists prefix, "govmap:roads" = prefix ++ ":" ++ gpkg_layer "govmap:roads".
Proof.
  assert (H : occurs ":" "govmap:roads").
  { unfold occurs. simpl. do 6 right. left. reflexivity. }
  split; [exact H|]. split; [reflexivity|].
  apply (proj2 (proj2 (PathFacts.gpkg_layer_after_last_colon "govmap:roads")) H).
Defined.

End PathRuns.

(** * The calls of a shrink retry *)

Section ShrinkCalls.
Context {Feature : Type}.
Variable env : Env Feature.

(** Two amounts of fuel that both carry a call to a result give the same
    result. *)
Lemma fuel_irrelevant f1 f2 start_index count min_chunk (w : World Feature)
    r1 w1 r2 w2 :
  fetch_features_with_retry_fuel env f1 start_index count min_chunk w = (r1, w1) ->
  r1 <> OutOfFuel ->
  fetch_features_with_retry_fuel env f2 start_index count min_chunk w = (r2, w2) ->
  r2 <> OutOfFuel ->
  (r1, w1) = (r2, w2).
Proof.
  intros E1 H1 E2 H2. destruct (Nat.le_ge_cases f1 f2) as [Hle|Hle].
  - rewrite (fetch_fuel_mono env f1 f2 _ _ _ _ _ _ Hle E1 H1) in E2. exact E2.
  - rewrite (fetch_fuel_mono env f2 f1 _ _ _ _ _ _ Hle E2 H2) in E1.
    symmetry. exact E1.
Qed.

(** A recursive call with enough fuel is a call of the fetcher. *)
Lemma sub_call_is_fetcher (k : nat) start_index count min_chunk (w : World Feature) :
  1 <= min_chunk -> count <= min_chunk * 10 ^ Z.of_nat k ->
  fetch_features_with_retry_fuel env (S k) start_index count min_chunk w
  = fetch_features_with_retry env start_index count min_chunk w.
Proof.
  intros Hm Hk.
  destruct (fetch_fuel_total env min_chunk Hm k start_index count w Hk)
    as (fs1 & w1 & E1 & _).
  destruct (fetch_total env start_index count min_chunk w Hm)
    as (fs2 & w2 & E2 & _).
  rewrite E1, E2. unfold fetch_features_with_retry in E2.
  eapply fuel_irrelevant; [exact E1 | discriminate | exact E2 | discriminate].
Qed.

Lemma CallChain_ext
    (call1 call2 : Z -> Z -> World Feature -> Result (list Feature) * World Feature)
    ws w fss w' :
  (forall s c w0, In (s, c) ws -> call1 s c w0 = call2 s c w0) ->
  CallChain call1 ws w fss w' -> CallChain call2 ws w fss w'.
Proof.
  intros Hext H. induction H as [w|s c ws w fs w1 fss w' E Hc IH].
  - constructor.
  - econstructor.
    + rewrite <- Hext by (left; reflexivity). exact E.
    + apply IH. intros s0 c0 w0 Hin. apply Hext. right. exact Hin.
Qed.

(** The loop calls [rec] on every sub-window, in order, each call starting
    in the world the previous one left, and concatenates the results. *)
Lemma retry_loop_chain (rec : Z -> Z -> Z -> M Feature (list Feature))
    start_index count small_count min_chunk :
  forall sub_starts acc (w : World Feature),
    (forall s c w1,
        In (s, c) (sub_windows start_index count small_count sub_starts) ->
        exists fs w2, rec s c min_chunk w1 = (Ok fs, w2)) ->
    exists fss w',
      retry_loop rec start_index count small_count min_chunk sub_starts acc w
      = (Ok (acc ++ concat fss), w') /\
      CallChain (fun s c => rec s c min_chunk)
        (sub_windows start_index count small_count sub_starts) w fss w'.
Proof.
  induction sub_starts as [|s rest IH]; intros acc w Hrec.
  - exists [], w. simpl. rewrite app_nil_r. split; [reflexivity | constructor].
  - destruct (Hrec s (Z.min small_count (start_index + count - s)) w
                (or_introl eq_refl)) as (fs1 & w1 & E1).
    destruct (IH (acc ++ fs1) w1) as (fss & w' & E & Hchain).
    { intros s' c' w0 Hin. apply Hrec. right. exact Hin. }
    exists (fs1 :: fss), w'. split.
    + cbn [retry_loop]. unfold bind at 1. unfold try_except, bind at 1.
      rewrite E1. unfold ret at 1. rewrite E. cbn [concat].
      rewrite app_assoc. reflexivity.
    + cbn [sub_windows map]. econstructor; [exact E1 | exact Hchain].
Qed.

(** Along a chain of calls of the fetcher the request history grows by one
    segment per call, and each segment starts with the request for the
    window of its call. *)
Lemma chain_requests min_chunk ws (w : World Feature) fss w' :
  1 <= min_chunk ->
  CallChain (fun s c => fetch_features_with_retry env s c min_chunk) ws w fss w' ->
  exists segments,
    requests w' = requests w ++ concat segments /\
    Forall2 (fun win seg => exists more, seg = win :: more) ws segments.
Proof.
  intros Hm H. induction H as [w|s c ws w fs w1 fss w' E Hc IH].
  - exists []. simpl. rewrite app_nil_r. split; [reflexivity | constructor].
  - destruct IH as (segments & Hr & Hseg).
    destruct (fetch_after_request env s c min_chunk w Hm)
      as (fs0 & w0 & E0 & _ & _ & _ & (more & Hmore)).
    rewrite E in E0. inversion E0; subst fs0 w0.
    exists (((s, c) :: more) :: segments). split.
    + rewrite Hr, Hmore. simpl. rewrite <- !app_assoc. reflexivity.
    + constructor; [exists more; reflexivity | exact Hseg].
Qed.

Lemma skipn_own_request {A : Type} (l : list A) x rest :
  skipn (S (length l)) (l ++ x :: rest) = rest.
Proof. induction l as [|y l IH]; simpl; [reflexivity | exact IH]. Qed.

(** C3, as amended.  Let the floor be at least one.  When the request for a
    window of more than [min_chunk] features times out, the fetcher takes
    [small_count = max (count / 10) min_chunk] and calls itself on the
    windows that start at [start_index], [start_index + small_count], ...,
    one call after the other in this order, each call starting in the
    world the previous one left; it returns the results of these calls
    concatenated in that order.  The requests sent after the one that
    timed out fall into one segment per sub-window, in order, each
    starting with the request for that sub-window.  The sub-windows tile
    [start_index, start_index + count): each starts where the previous one
    ends, all but the last have [small_count] features, the last has what
    remains (between one and [small_count]), and the sizes add up to
    [count]. *)
Theorem shrink_partition start_index count min_chunk (w : World Feature) :
  1 <= min_chunk -> min_chunk < count ->
  page_response env (length (requests w)) start_index count = Timeout ->
  let small_count := Z.max (count / 10) min_chunk in
  let sub_starts :=
    map (fun i : nat => start_index + Z.of_nat i * small_count)
        (seq 0 (pieces count small_count)) in
  let windows := sub_windows start_index count small_count sub_starts in
  (exists fss w' segments,
      fetch_features_with_retry env start_index count min_chunk w
      = (Ok (concat fss), w') /\
      CallChain (fun s c => fetch_features_with_retry env s c min_chunk)
        windows
        (logged Warning (RetrySmaller start_index count small_count)
           (logged Warning (TimeoutFetching start_index count)
              (sent start_index count w)))
        fss w' /\
      sub_requests w w' = concat segments /\
      Forall2 (fun win seg => exists more, seg = win :: more) windows segments) /\
  Tiling start_index (start_index + count) windows /\
  total_size windows = count /\
  Forall (fun win => snd win = small_count) (removelast windows) /\
  Forall (fun win => 1 <= snd win <= small_count) windows.
Proof.
  intros Hm Hgt Ht small_count sub_starts windows.
  assert (Hfuel : exists k, retry_fuel count = S (S k) /\
                            count <= min_chunk * 10 ^ Z.of_nat (S k)).
  { unfold retry_fuel. pose proof (Z.log2_up_pos count ltac:(lia)) as Hpos.
    exists (Nat.pred (Z.to_nat (Z.log2_up count))).
    assert (Hk : S (Nat.pred (Z.to_nat (Z.log2_up count)))
                 = Z.to_nat (Z.log2_up count)) by lia.
    split; [f_equal; lia|]. rewrite Hk. apply retry_fuel_covers. exact Hm. }
  destruct Hfuel as (k & Hfuel & Hk).
  destruct (shrink_step env (S k) start_index count min_chunk w Hm Hgt Ht)
    as (E & Htil & Htot & Hlast & Hsize).
  cbv zeta in E, Htil, Htot, Hlast, Hsize.
  fold small_count in E, Htil, Htot, Hlast, Hsize.
  fold sub_starts in E, Htil, Htot, Hlast, Hsize.
  fold windows in Htil, Htot, Hlast, Hsize.
  split; [|repeat split; assumption].
  assert (Hsmall : small_count <= min_chunk * 10 ^ Z.of_nat k).
  { pose proof (pow10_pos k) as Hp.
    unfold small_count. apply Z.max_lub; [|nia].
    apply Z.div_le_upper_bound; [lia|].
    rewrite Nat2Z.inj_succ, Z.pow_succ_r in Hk by lia. lia. }
  assert (Hwin : forall s c, In (s, c) windows -> c <= min_chunk * 10 ^ Z.of_nat k).
  { intros s c Hin. rewrite Forall_forall in Hsize.
    apply list_elem_of_In, Hsize in Hin. simpl in Hin. lia. }
  destruct (retry_loop_chain (fetch_features_with_retry_fuel env (S k))
              start_index count small_count min_chunk sub_starts []
              (logged Warning (RetrySmaller start_index count small_count)
                 (logged Warning (TimeoutFetching start_index count)
                    (sent start_index count w))))
    as (fss & w' & Eloop & Hchain).
  { intros s c w1 Hin.
    destruct (fetch_fuel_total env min_chunk Hm k s c w1 (Hwin s c Hin))
      as (fs & w2 & Efs & _).
    exists fs, w2. exact Efs. }
  fold windows in Hchain.
  assert (Hchain' : CallChain
                      (fun s c => fetch_features_with_retry env s c min_chunk)
                      windows
                      (logged Warning (RetrySmaller start_index count small_count)
                         (logged Warning (TimeoutFetching start_index count)
                            (sent start_index count w)))
                      fss w').
  { eapply CallChain_ext; [|exact Hchain].
    intros s c w0 Hin. apply sub_call_is_fetcher; [exact Hm | exact (Hwin s c Hin)]. }
  destruct (chain_requests min_chunk _ _ _ _ Hm Hchain') as (segments & Hr & Hseg).
  exists fss, w', segments.
  split; [|split; [exact Hchain' | split; [|exact Hseg]]].
  - unfold fetch_features_with_retry. rewrite Hfuel, E, Eloop. reflexivity.
  - unfold sub_requests. rewrite Hr. simpl. rewrite <- app_assoc. simpl.
    apply skipn_own_request.
Qed.

End ShrinkCalls.

(** * The floor, and how a window reaches the missing list *)

Section Floor.
Context {Feature : Type}.
Variable env : Env Feature.


End Floor.


(** C3 as stated fails.  With a floor of zero the window of five features
    at offset 10 is larger than the floor; when its request times out,
    [small_count] is [max (5 / 10) 0 = 0], [range] refuses the zero step,
    the call raises [ValueError] and no sub-window is requested. *)
Lemma zero_floor_has_no_pieces :
  0 < 5 /\
  Z.max (5 / 10) 0 = 0 /\
  py_range 10 (10 + 5) 0 = None /\
  fst (fetch_features_with_retry always_timeout 10 5 0 empty_world)
  = Raised ValueError /\
  sub_requests empty_world
    (snd (fetch_features_with_retry always_timeout 10 5 0 empty_world)) = [].
Proof. repeat split; vm_compute; reflexivity. Qed.

(** C9 as stated fails.  With a floor of zero, a timeout on the window of
    five features at offset 0 makes the fetcher raise [ValueError]: the
    step of [range] is zero, and the loop header is outside any [try]. *)
Lemma zero_floor_raises :
  fetch_features_with_retry always_timeout 0 5 0 empty_world
  = (Raised ValueError,
     logged Warning (RetrySmaller 0 5 0)
       (logged Warning (TimeoutFetching 0 5) (sent 0 5 empty_world))).
Proof. vm_compute. reflexivity. Qed.

Lemma shrink_partition_witness :
  1 <= 1 /\ 1 < 2000 /\
  page_response flaky_once_server (length (requests empty_world)) 0 2000 = Timeout /\
  (exists fss w',
      fetch_features_with_retry flaky_once_server 0 2000 1 empty_world
      = (Ok (concat fss), w')) /\
  Tiling 0 2000
    (sub_windows 0 2000 200 [0; 200; 400; 600; 800; 1000; 1200; 1400; 1600; 1800]) /\
  total_size
    (sub_windows 0 2000 200 [0; 200; 400; 600; 800; 1000; 1200; 1400; 1600; 1800])
  = 2000.
Proof.
  pose proof (shrink_partition flaky_once_server 0 2000 1 empty_world
                ltac:(lia) ltac:(lia) eq_refl) as H.
  cbv zeta in H. destruct H as ((fss & w' & segments & E & _) & Ht & Hs & _).
  split; [lia|]. split; [lia|]. split; [reflexivity|].
  split; [exists fss, w'; exact E|]. split; [exact Ht | exact Hs].
Defined.
